(** * earthquake_fns: loaders, range filter and slope of the earthquake lab

    A shallow embedding of [earthquake_fns.py] (the two copies in the
    repository agree on every function they share; [select_quake_subset]
    and [get_slope] exist in one of them only).

    Conventions.
    - A pandas [DataFrame] is the list of its rows in row order; a row is a
      record with one field per column the code names, and the remaining
      columns carried along as [passthrough].
    - Python exceptions are values of [exn]; a call that may raise returns a
      [result].
    - Library functions whose code is not part of the repository
      ([pd.to_datetime], [np.arctan], [pd.read_csv]) are parameters of the
      section that uses them; [np.degrees] is one on exact numbers, and the
      multiplication by [180.0 / pi] that it is on doubles.
    - The catalogue is modelled for tables and bounds whose instants can be
      compared with each other (pandas refuses to compare an instant that
      carries a time zone with one that does not); what is stated of a call
      with [times] is stated of the calls that return.
    - The slope is embedded twice: on exact rationals, for the algebra of
      rise over run, and on Python's own numbers ([int] and binary64
      [float]), for what the calculation raises and returns.
    - A plate name is what [pd.read_csv] makes of it: a string, a number, or
      NaN for a missing name. *)

From Stdlib Require Import QArith Qcanon Ascii String SpecFloat.
From stdpp Require Import base option list gmap strings fin_maps.

Local Open Scope string_scope.

(** ** Exceptions *)

Inductive exn : Type :=
  | OSError (msg : string)
  | ValueError (msg : string)
  | ZeroDivisionError
  | OverflowError (msg : string)
  | DateParseError (msg : string).

Inductive result (A : Type) : Type :=
  | Ok (a : A)
  | Raise (e : exn).
Arguments Ok {A} a.
Arguments Raise {A} e.

Definition bind {A B} (m : result A) (k : A → result B) : result B :=
  match m with
  | Ok a => k a
  | Raise e => Raise e
  end.

Notation "'try' x := m 'in' k" := (bind m (fun x => k))
  (at level 10, x name, m at level 100, k at level 200, only parsing).

(** [traverse f l] applies [f] to the cells of a column in order and stops at
    the first one that raises. *)
Fixpoint traverse {A B} (f : A → result B) (l : list A) : result (list B) :=
  match l with
  | [] => Ok []
  | a :: l' => try b := f a in try bs := traverse f l' in Ok (b :: bs)
  end.

(** ** The earthquake catalogue *)

(** What the code takes from pandas: the numbers of the numeric columns with
    their comparison [<=], instants with theirs, and [pd.to_datetime] on one
    string.  Nothing is assumed of [leb], so a comparison that is false on a
    not-a-number cell is covered; [col >= x] is read as [x <= col].
    [pd.to_datetime] is taken to convert a column cell by cell, and to read
    a cell of the column and a bound of [times] in the same way; [instant]
    stands for instants that compare with each other, so that a column
    whose strings carry a time zone against bounds that carry none (where
    pandas raises [TypeError]) is outside the model. *)
Class Pandas : Type := {
  num : Type;
  leb : num → num → bool;
  instant : Type;
  instant_leb : instant → instant → bool;
  parse_datetime : string → result instant
}.

Section Catalogue.
Context `{Pandas}.

(** A cell of the [Time] column: the string read from the file, or an
    instant once the column has been converted. *)
Inductive time_cell : Type :=
  | TStr (s : string)
  | TStamp (t : instant).

Inductive cell : Type :=
  | CNum (x : num)
  | CStr (s : string).

Record row : Type := {
  Latitude : num;
  Longitude : num;
  Depth : num;
  Magnitude : num;
  Time : time_cell;
  passthrough : list cell
}.

Abbreviation DataFrame := (list row) (only parsing).

(** [pd.to_datetime] on a cell: an instant is returned as it is. *)
Definition to_datetime (c : time_cell) : result instant :=
  match c with
  | TStr s => parse_datetime s
  | TStamp t => Ok t
  end.

(** [df[name]]: a column, as the list of its cells. *)
Definition column {A} (f : row → A) (df : DataFrame) : list A := map f df.

(** [col >= x], [col <= x] and [m1 & m2] on columns. *)
Definition ge_scalar {A} (le : A → A → bool) (col : list A) (x : A) : list bool :=
  map (fun v => le x v) col.
Definition le_scalar {A} (le : A → A → bool) (col : list A) (x : A) : list bool :=
  map (fun v => le v x) col.
Definition mask_and (m1 m2 : list bool) : list bool := zip_with andb m1 m2.

(** [df[mask]]: the rows whose mask entry is [True], in order. *)
Fixpoint getitem_mask (df : DataFrame) (mask : list bool) : DataFrame :=
  match df, mask with
  | r :: df', b :: mask' =>
      if b then r :: getitem_mask df' mask' else getitem_mask df' mask'
  | _, _ => []
  end.

(** [df['Time'] = col]: the column is replaced cell by cell. *)
Definition set_Time (r : row) (t : instant) : row :=
  {| Latitude := Latitude r; Longitude := Longitude r; Depth := Depth r;
     Magnitude := Magnitude r; Time := TStamp t;
     passthrough := passthrough r |}.
Definition setitem_Time (df : DataFrame) (col : list instant) : DataFrame :=
  zip_with set_Time df col.

(** [<=] on the cells of a converted column and a converted bound. *)
Definition stamp_leb (c1 c2 : time_cell) : bool :=
  match c1, c2 with
  | TStamp t1, TStamp t2 => instant_leb t1 t2
  | _, _ => false
  end.

(** One numeric range step:
    [df_sub[(df_sub[c] >= r[0]) & (df_sub[c] <= r[1])]]. *)
Definition narrow (f : row → num) (r : option (num * num)) (df_sub : DataFrame)
  : DataFrame :=
  match r with
  | None => df_sub
  | Some (lo, hi) =>
      getitem_mask df_sub
        (mask_and (ge_scalar leb (column f df_sub) lo)
                  (le_scalar leb (column f df_sub) hi))
  end.

(** The [times] step. *)
Definition narrow_times (times : option (time_cell * time_cell))
    (df_sub : DataFrame) : result DataFrame :=
  match times with
  | None => Ok df_sub
  | Some (t0, t1) =>
      try col := traverse to_datetime (column Time df_sub) in
      let df_sub := setitem_Time df_sub col in
      try t_start := to_datetime t0 in
      try t_end := to_datetime t1 in
      Ok (getitem_mask df_sub
            (mask_and (ge_scalar stamp_leb (column Time df_sub) (TStamp t_start))
                      (le_scalar stamp_leb (column Time df_sub) (TStamp t_end))))
  end.

Record ranges : Type := {
  times : option (time_cell * time_cell);
  lons : option (num * num);
  lats : option (num * num);
  depths : option (num * num);
  mags : option (num * num)
}.

Definition no_ranges : ranges :=
  {| times := None; lons := None; lats := None; depths := None; mags := None |}.

(** The range filter, on values: [df.copy()] is the table itself (what the
    copy is for shows on the store, below). *)
Definition select_quake_subset (df : DataFrame) (a : ranges) : result DataFrame :=
  let df_sub := df in
  try df_sub := narrow_times (times a) df_sub in
  let df_sub := narrow Longitude (lons a) df_sub in
  let df_sub := narrow Latitude (lats a) df_sub in
  let df_sub := narrow Depth (depths a) df_sub in
  let df_sub := narrow Magnitude (mags a) df_sub in
  Ok df_sub.

(** [parse_earthquakes_to_np]: four numeric columns as they are, and the
    [Time] column converted ([.dt.to_pydatetime()] keeps the instants). *)
Definition parse_earthquakes_to_np (df : DataFrame)
  : result (list num * list num * list num * list num * list instant) :=
  let lats := column Latitude df in
  let lons := column Longitude df in
  let depths := column Depth df in
  let magnitudes := column Magnitude df in
  try time_series := traverse to_datetime (column Time df) in
  let times := time_series in
  Ok (lats, lons, depths, magnitudes, times).

(** *** The vocabulary of the statements *)

(** [lower <= v <= upper] for a numeric range, true when none is given. *)
Definition in_range (f : row → num) (r : option (num * num)) (x : row) : bool :=
  match r with
  | None => true
  | Some (lo, hi) => leb lo (f x) && leb (f x) hi
  end.

(** The same for [times], on the instants of the bounds and of the cell. *)
Definition in_times (r : option (time_cell * time_cell)) (x : row) : bool :=
  match r with
  | None => true
  | Some (t0, t1) =>
      match to_datetime t0, to_datetime t1, to_datetime (Time x) with
      | Ok lo, Ok hi, Ok t => instant_leb lo t && instant_leb t hi
      | _, _, _ => false
      end
  end.

Definition satisfies (a : ranges) (x : row) : bool :=
  in_times (times a) x && in_range Longitude (lons a) x
  && in_range Latitude (lats a) x && in_range Depth (depths a) x
  && in_range Magnitude (mags a) x.

(** A row with its [Time] cell replaced by the instant it parses to. *)
Definition reparsed (x : row) : row :=
  match to_datetime (Time x) with
  | Ok t => set_Time x t
  | Raise _ => x
  end.

(** The row as a call with ranges [a] hands it back. *)
Definition as_returned (a : ranges) (x : row) : row :=
  match times a with
  | None => x
  | Some _ => reparsed x
  end.

(** Two rows agree on every column but [Time]. *)
Definition same_but_Time (x y : row) : Prop :=
  Latitude x = Latitude y ∧ Longitude x = Longitude y ∧ Depth x = Depth y
  ∧ Magnitude x = Magnitude y ∧ passthrough x = passthrough y.

(** The column [Time] parses in full. *)
Definition Time_parses (df : DataFrame) : Prop :=
  ∀ x, x ∈ df → ∃ t, to_datetime (Time x) = Ok t.

(** One call after another. *)
Definition select_then (a b : ranges) (df : DataFrame) : result DataFrame :=
  try d := select_quake_subset df a in select_quake_subset d b.

End Catalogue.

Abbreviation DataFrame := (list row) (only parsing).

(** ** The range filter on a store of frames

    [df.copy()], [df_sub['Time'] = ...] and [df_sub[mask]] act on frames that
    live in the interpreter's memory: the first and the last make a new
    frame, the assignment changes the frame [df_sub] names in place.  The
    store maps the address of every live frame to its rows; a computation
    takes a store and gives back a result and the store it leaves. *)

Module Heap.
Section Heap.
Context `{Pandas}.

Definition loc : Type := positive.
Definition M (A : Type) : Type := gmap loc DataFrame → result A * gmap loc DataFrame.

Definition ret {A} (a : A) : M A := fun σ => (Ok a, σ).
Definition lift {A} (r : result A) : M A := fun σ => (r, σ).
Definition mbind {A B} (m : M A) (k : A → M B) : M B :=
  fun σ => match m σ with
           | (Ok a, σ') => k a σ'
           | (Raise e, σ') => (Raise e, σ')
           end.

Notation "'run' x := m 'in' k" := (mbind m (fun x => k))
  (at level 10, x name, m at level 100, k at level 200, only parsing).

(** The rows of the frame at [l] (no rows for an address never given out). *)
Definition frame (l : loc) : M DataFrame :=
  fun σ => (Ok (default [] (σ !! l)), σ).

(** A new frame at an address not in use. *)
Definition new_frame (df : DataFrame) : M loc :=
  fun σ => let l := fresh (dom σ) in (Ok l, <[l := df]> σ).

(** [df.copy()]. *)
Definition copy (l : loc) : M loc :=
  run cur := frame l in new_frame cur.

(** [df_sub['Time'] = col], in place. *)
Definition setitem_Time_at (l : loc) (col : list instant) : M unit :=
  fun σ => (Ok tt, <[l := setitem_Time (default [] (σ !! l)) col]> σ).

(** [df_sub[mask]]: a new frame. *)
Definition getitem_mask_at (l : loc) (mask : list bool) : M loc :=
  run cur := frame l in new_frame (getitem_mask cur mask).

Definition narrow (f : row → num) (r : option (num * num)) (df_sub : loc) : M loc :=
  match r with
  | None => ret df_sub
  | Some (lo, hi) =>
      run cur := frame df_sub in
      getitem_mask_at df_sub
        (mask_and (ge_scalar leb (column f cur) lo)
                  (le_scalar leb (column f cur) hi))
  end.

Definition narrow_times (times : option (time_cell * time_cell)) (df_sub : loc)
  : M loc :=
  match times with
  | None => ret df_sub
  | Some (t0, t1) =>
      run cur := frame df_sub in
      run col := lift (traverse to_datetime (column Time cur)) in
      run _u := setitem_Time_at df_sub col in
      run t_start := lift (to_datetime t0) in
      run t_end := lift (to_datetime t1) in
      run cur := frame df_sub in
      getitem_mask_at df_sub
        (mask_and (ge_scalar stamp_leb (column Time cur) (TStamp t_start))
                  (le_scalar stamp_leb (column Time cur) (TStamp t_end)))
  end.

Definition select_quake_subset (df : loc) (a : ranges) : M loc :=
  run df_sub := copy df in
  run df_sub := narrow_times (times a) df_sub in
  run df_sub := narrow Longitude (lons a) df_sub in
  run df_sub := narrow Latitude (lats a) df_sub in
  run df_sub := narrow Depth (depths a) df_sub in
  run df_sub := narrow Magnitude (mags a) df_sub in
  ret df_sub.

(** Every frame of [σ0] is in [σ] with the same rows. *)
Definition agree (σ0 σ : gmap loc (list row)) : Prop :=
  ∀ l, l ∈ dom σ0 → (σ !! l) = (σ0 !! l).

(** The state in the middle of a call that started in [σ0]: the frames of
    [σ0] are as they were, and [df_sub] names a frame made since, whose
    rows are [cur]. *)
Definition working (σ0 σ : gmap loc (list row)) (l : loc) (cur : list row)
  : Prop :=
  agree σ0 σ ∧ (l ∉ dom σ0) ∧ (σ !! l = Some cur).

End Heap.
End Heap.

(** ** The slope between two points, on exact numbers

    Coordinates are exact rationals: the arithmetic of the function without
    rounding and without the limits of a double.  [np.arctan] and
    [np.degrees] are numpy's; [/] is true division, which raises on a zero
    divisor.  The embedding on Python's numbers follows. *)

Class Numpy : Type := {
  float : Type;
  arctan : Qc → float;
  degrees : float → float
}.

Definition true_div (a b : Qc) : result Qc :=
  if decide (b = 0%Qc) then Raise ZeroDivisionError else Ok (a / b)%Qc.

Definition vertical_msg : string :=
  "Division by zero: The x-coordinates of the start and end points cannot be the same.".

Definition get_slope `{Numpy} (start_pt end_pt : Qc * Qc) : result float :=
  let '(x1, y1) := start_pt in
  let '(x2, y2) := end_pt in
  let rise := (y2 - y1)%Qc in
  let run := (x2 - x1)%Qc in
  if decide (run = 0%Qc) then Raise (ValueError vertical_msg)
  else
    try slope := true_div rise run in
    Ok (degrees (arctan slope)).

(** ** The slope between two points, on Python's numbers

    A coordinate is an [int], of any size, or a [float], an IEEE-754
    binary64.  Floats are [spec_float] with the operations of the Standard
    Library's specification of binary64 ([prec] 53, [emax] 1024), rounding
    to nearest, ties to even.  [np.degrees] multiplies by the double
    [180.0 / pi]; [np.arctan] is the C library's and is a parameter. *)

Module Py.

Definition prec : Z := 53.
Definition emax : Z := 1024.

Inductive number : Type :=
  | PInt (z : Z)
  | PFloat (f : spec_float).

Definition is_inf (f : spec_float) : bool :=
  match f with S754_infinity _ => true | _ => false end.

Definition int_to_float_msg : string := "int too large to convert to float".
Definition int_div_msg : string :=
  "integer division result too large for a float".

(** The conversion of an [int] operand next to a [float] one. *)
Definition float_of_int (z : Z) : result spec_float :=
  let f := binary_normalize prec emax z 0 false in
  if is_inf f then Raise (OverflowError int_to_float_msg) else Ok f.

Definition to_float (n : number) : result spec_float :=
  match n with
  | PInt z => float_of_int z
  | PFloat f => Ok f
  end.

(** [a - b]: exact on two ints, in floats otherwise. *)
Definition sub (a b : number) : result number :=
  match a, b with
  | PInt x, PInt y => Ok (PInt (x - y))
  | _, _ =>
      try fa := to_float a in
      try fb := to_float b in
      Ok (PFloat (SFsub prec emax fa fb))
  end.

(** [n == 0]. *)
Definition is_zero (n : number) : bool :=
  match n with
  | PInt z => (z =? 0)%Z
  | PFloat f => SFeqb f (S754_zero false)
  end.

(** An int as it stands, before any rounding. *)
Definition raw (z : Z) : spec_float :=
  match z with
  | Z0 => S754_zero false
  | Zpos p => S754_finite false p 0
  | Zneg p => S754_finite true p 0
  end.

(** [a / b]: on two ints the quotient rounded once; in floats otherwise. *)
Definition true_div (a b : number) : result spec_float :=
  match a, b with
  | PInt x, PInt y =>
      if (y =? 0)%Z then Raise ZeroDivisionError
      else
        let q := SFdiv prec emax (raw x) (raw y) in
        if is_inf q then Raise (OverflowError int_div_msg) else Ok q
  | _, _ =>
      try fa := to_float a in
      try fb := to_float b in
      if SFeqb fb (S754_zero false) then Raise ZeroDivisionError
      else Ok (SFdiv prec emax fa fb)
  end.

Class Libm : Type := { np_arctan : spec_float → spec_float }.

(** The doubles [pi], [180.0] and [180.0 / pi]. *)
Definition pi : spec_float := S754_finite false 7074237752028440 (-51).
Definition f180 : spec_float := S754_finite false 6333186975989760 (-45).
Definition rad2deg : spec_float := SFdiv prec emax f180 pi.

Definition np_degrees (x : spec_float) : spec_float := SFmul prec emax x rad2deg.

Definition get_slope `{Libm} (start_pt end_pt : number * number)
  : result spec_float :=
  let '(x1, y1) := start_pt in
  let '(x2, y2) := end_pt in
  try rise := sub y2 y1 in
  try run := sub x2 x1 in
  if is_zero run then Raise (ValueError vertical_msg)
  else
    try slope := true_div rise run in
    Ok (np_degrees (np_arctan slope)).

(** *** The vocabulary of the statements *)




(** The doubles 90.0, 45.0, 1.0, and those nearest pi/2 and pi/4. *)
Definition f90 : spec_float := S754_finite false 6333186975989760 (-46).
Definition f45 : spec_float := S754_finite false 6333186975989760 (-47).
Definition f1 : spec_float := S754_finite false 4503599627370496 (-52).
Definition half_pi : spec_float := S754_finite false 7074237752028440 (-52).
Definition quarter_pi : spec_float := S754_finite false 7074237752028440 (-53).

(** [-90 < v < 90]. *)
Definition strictly_within_90 (v : spec_float) : bool :=
  SFltb (SFopp f90) v && SFltb v f90.

(** [np.arctan] at the arguments the examples use: zeros, one, arguments
    from 2^53 up in size (where the nearest double to the arctangent is that
    nearest pi/2), infinities and NaN.  Elsewhere this table has no entry
    and answers NaN. *)
Definition signed (s : bool) (f : spec_float) : spec_float :=
  if s then SFopp f else f.

Definition arctan_table (x : spec_float) : spec_float :=
  match x with
  | S754_zero s => S754_zero s
  | S754_nan => S754_nan
  | S754_infinity s => signed s half_pi
  | S754_finite s m e =>
      if (m =? 4503599627370496)%positive && (e =? -52)%Z
      then signed s quarter_pi
      else if (54 <=? Zpos (digits2_pos m) + e)%Z then signed s half_pi
      else S754_nan
  end.

Definition libm_table : Libm := {| np_arctan := arctan_table |}.

(** The largest double. *)
Definition max_float : spec_float := S754_finite false 9007199254740991 971.

(** An arctangent as the C library's: its value is NaN, or a double no
    larger in size than the double nearest pi/2. *)
Definition arctan_in_range `{Libm} : Prop :=
  ∀ x, np_arctan x = S754_nan
       ∨ (valid_binary prec emax (np_arctan x) = true
          ∧ SFleb (SFabs (np_arctan x)) half_pi = true).

(** The float a rounding ends in, from its mantissa and exponent. *)
Definition finish (sx : bool) (m e : Z) : spec_float :=
  match m with
  | Z0 => S754_zero sx
  | Zpos p =>
      if (e <=? emax - prec)%Z then S754_finite sx p e else S754_infinity sx
  | Zneg _ => S754_nan
  end.

End Py.

(** ** Plate boundaries *)

(** A cell of the [name] column as [pd.read_csv] leaves it: a string; a
    number, by its value (a column of which every token is numeric is read
    as numbers); or NaN, which stands for a missing value (the tokens [NA],
    [null], the empty token and the like). *)
Inductive name_cell : Type :=
  | NStr (s : string)
  | NNum (q : Qc)
  | NNaN.

#[global] Instance name_cell_eq_dec : EqDecision name_cell.
Proof. solve_decision. Defined.

#[global] Instance name_cell_countable : Countable name_cell :=
  inj_countable'
    (fun c => match c with
              | NStr s => inl s
              | NNum q => inr (inl q)
              | NNaN => inr (inr ())
              end)
    (fun x => match x with
              | inl s => NStr s
              | inr (inl q) => NNum q
              | inr (inr _) => NNaN
              end)
    (fun c => match c with NStr _ | NNum _ | NNaN => eq_refl end).

(** [a == b] on cells: NaN is equal to nothing, not even to itself. *)
Definition cell_eqb (a b : name_cell) : bool :=
  match a with
  | NNaN => false
  | _ => bool_decide (a = b)
  end.

(** [Series.unique()]: the distinct values in order of first appearance,
    NaN once. *)
Fixpoint unique_from (seen : list name_cell) (l : list name_cell)
  : list name_cell :=
  match l with
  | [] => []
  | x :: l' =>
      if decide (x ∈ seen) then unique_from seen l'
      else x :: unique_from (x :: seen) l'
  end.
Definition unique (l : list name_cell) : list name_cell := unique_from [] l.

Section Plates.
Context {coord : Type}.

(** A row of the table, columns named [name], [lat], [lon] in that order. *)
Record plate_row : Type := { name : name_cell; lat : coord; lon : coord }.

(** [pd.read_csv(plates_file, header=None, names=[...])]. *)
Variable read_csv : string → result (list plate_row).

(** [np.column_stack((a, b))]: an N x 2 array, one pair per row. *)
Definition column_stack (a b : list coord) : list (coord * coord) := zip a b.

(** [df[df["name"] == plate_name]]. *)
Definition named (df : list plate_row) (plate_name : name_cell)
  : list plate_row :=
  filter (fun r => Is_true (cell_eqb (name r) plate_name)) df.

Definition plate_step (df : list plate_row)
    (pb_dict : gmap name_cell (list (coord * coord))) (plate_name : name_cell)
  : gmap name_cell (list (coord * coord)) :=
  let subset := named df plate_name in
  let coords := column_stack (map lon subset) (map lat subset) in
  <[plate_name := coords]> pb_dict.

Definition plate_read_msg (plates_file err : string) : string :=
  "Could not read plate-boundary file '" ++ plates_file ++ "': " ++ err.

Definition get_plate_boundaries (plates_file : string)
  : result (gmap name_cell (list (coord * coord))) :=
  match read_csv plates_file with
  | Raise (OSError err) => Raise (OSError (plate_read_msg plates_file err))
  | Raise e => Raise e
  | Ok df => Ok (foldl (plate_step df) ∅ (unique (map name df)))
  end.

Definition total_length (d : gmap name_cell (list (coord * coord))) : nat :=
  sum_list (map (fun kv => length kv.2) (map_to_list d)).


(** The coordinates of the rows named [k], in the order of the file. *)
Definition coords_of (df : list plate_row) (k : name_cell)
  : list (coord * coord) :=
  map (fun r => (lon r, lat r)) (named df k).


End Plates.

(** ** A concrete setting, for evaluating the definitions

    Numbers are rationals compared by [Qle_bool].  [naive_iso] reads the plain
    form [YYYY-MM-DDTHH:MM:SS] and nothing else ([pd.to_datetime] reads more
    forms than that, and reads this one the same way); the instant of such a
    string is the number [YYYYMMDDHHMMSS], which orders date-times as the
    calendar does. *)

Definition digit (c : ascii) : option Z :=
  let n := Z.of_nat (nat_of_ascii c) in
  if ((48 <=? n) && (n <=? 57))%Z then Some (n - 48)%Z else None.

Definition two_digits (a b : ascii) : option Z :=
  match digit a, digit b with
  | Some x, Some y => Some (10 * x + y)%Z
  | _, _ => None
  end.

Definition is_char (c : ascii) (s : string) : bool :=
  if decide (String c EmptyString = s) then true else false.

Definition unknown_format (s : string) : exn :=
  DateParseError ("Unknown datetime string format, unable to parse: " ++ s).

Definition naive_iso (s : string) : result Z :=
  match list_ascii_of_string s with
  | [y1; y2; y3; y4; s1; m1; m2; s2; d1; d2; s3; h1; h2; s4; n1; n2; s5; c1; c2] =>
      match two_digits y1 y2, two_digits y3 y4, two_digits m1 m2,
            two_digits d1 d2, two_digits h1 h2, two_digits n1 n2,
            two_digits c1 c2 with
      | Some ya, Some yb, Some mo, Some d, Some h, Some mi, Some sec =>
          if is_char s1 "-" && is_char s2 "-" && is_char s3 "T"
             && is_char s4 ":" && is_char s5 ":"
             && (1 <=? mo)%Z && (mo <=? 12)%Z && (1 <=? d)%Z && (d <=? 31)%Z
             && (h <=? 23)%Z && (mi <=? 59)%Z && (sec <=? 59)%Z
          then Ok (((((((ya * 100 + yb) * 100 + mo) * 100 + d) * 100 + h)
                      * 100 + mi) * 100 + sec)%Z)
          else Raise (unknown_format s)
      | _, _, _, _, _, _, _ => Raise (unknown_format s)
      end
  | _ => Raise (unknown_format s)
  end.

Definition pandas_Q : Pandas :=
  {| num := Q; leb := Qle_bool; instant := Z; instant_leb := Z.leb;
     parse_datetime := naive_iso |}.

(** A catalogue row of the concrete setting, without passthrough columns. *)
Definition quake (la lo de ma : Q) (t : string) : @row pandas_Q :=
  @Build_row pandas_Q la lo de ma (TStr t) [].

Definition only_times (t0 t1 : string) : @ranges pandas_Q :=
  @Build_ranges pandas_Q (Some (TStr t0, TStr t1)) None None None None.
Definition only_lons (lo hi : Q) : @ranges pandas_Q :=
  @Build_ranges pandas_Q None (Some (lo, hi)) None None None.
Definition only_mags (lo hi : Q) : @ranges pandas_Q :=
  @Build_ranges pandas_Q None None None None (Some (lo, hi)).

(** A catalogue whose [Time] column parses, and one with a cell that does
    not. *)
Definition catalogue : list (@row pandas_Q) :=
  [ quake 35 139 10 (45 # 10) "2001-01-01T00:00:00";
    quake (-33) (-70) 30 6 "2003-05-05T12:00:00";
    quake 61 (-150) 25 (52 # 10) "2001-06-15T08:30:00" ].

Definition catalogue_bad : list (@row pandas_Q) :=
  [ quake 35 139 10 (45 # 10) "2001-01-01T00:00:00";
    quake 0 200 5 2 "unknown" ].

Definition year_2001 : @ranges pandas_Q :=
  only_times "2001-01-01T00:00:00" "2001-12-31T23:59:59".

Definition stamped (la lo de ma : Q) (t : Z) : @row pandas_Q :=
  @Build_row pandas_Q la lo de ma (@TStamp pandas_Q t) [].

(** A store in which [catalogue] is the one frame, at address 1. *)
Definition memory : gmap Heap.loc (list (@row pandas_Q)) :=
  {[ 1%positive := catalogue ]}.

(** A plate-boundary file with the rows of one plate apart from each other. *)
Definition plates_rows : list (@plate_row Q) :=
  [ {| name := NStr "AF"; lat := 1%Q; lon := 2%Q |};
    {| name := NStr "EU"; lat := 3%Q; lon := 4%Q |};
    {| name := NStr "AF"; lat := 5%Q; lon := 6%Q |} ].

(** A table with a row whose name was read as missing (in the file, a name
    such as [NA]). *)
Definition plates_rows_missing : list (@plate_row Q) :=
  [ {| name := NNaN; lat := 1%Q; lon := 2%Q |};
    {| name := NStr "AF"; lat := 3%Q; lon := 4%Q |} ].

Definition plates_disk (path : string) : result (list (@plate_row Q)) :=
  if decide (path = "plates.csv") then Ok plates_rows
  else if decide (path = "missing.csv") then Ok plates_rows_missing
  else Raise (OSError "No such file or directory").


(** ** The other loaders *)

Module Coastlines.
Section Coastlines.
Context {coord : Type}.

(** A row of the file, columns named [lon], [lat] in that order. *)
Record coast_row : Type := { lon : coord; lat : coord }.

(** [pd.read_csv(coasts_file, header=None, names=["lon", "lat"])]. *)
Variable read_csv : string → result (list coast_row).

Definition coast_read_msg (coasts_file err : string) : string :=
  "Could not read coastline file '" ++ coasts_file ++ "': " ++ err.

Definition get_coastlines (coasts_file : string)
  : result (list coord * list coord) :=
  match read_csv coasts_file with
  | Raise (OSError err) => Raise (OSError (coast_read_msg coasts_file err))
  | Raise e => Raise e
  | Ok df =>
      let lon_coast := map lon df in
      let lat_coast := map lat df in
      Ok (lon_coast, lat_coast)
  end.

End Coastlines.
End Coastlines.

Section Earthquakes.
Context `{Pandas}.

(** [pd.read_csv(filename)]. *)
Variable read_csv : string → result (list row).

Definition quake_read_msg (filename err : string) : string :=
  "Could not read earthquake file '" ++ filename ++ "': " ++ err.

Definition get_earthquakes (filename : string) : result (list row) :=
  match read_csv filename with
  | Raise (OSError err) => Raise (OSError (quake_read_msg filename err))
  | Raise e => Raise e
  | Ok earthquakes => Ok earthquakes
  end.

End Earthquakes.

(** ** More vocabulary *)

Section Combined.
Context `{Pandas}.

(** The ranges of two calls put into one call. *)
Definition pick {A} (x y : option A) : option A :=
  match x with Some _ => x | None => y end.

Definition both (a b : ranges) : ranges :=
  {| times := pick (times a) (times b); lons := pick (lons a) (lons b);
     lats := pick (lats a) (lats b); depths := pick (depths a) (depths b);
     mags := pick (mags a) (mags b) |}.

(** No column is given a range by both. *)
Definition apart (a b : ranges) : Prop :=
  (times a = None ∨ times b = None) ∧ (lons a = None ∨ lons b = None)
  ∧ (lats a = None ∨ lats b = None) ∧ (depths a = None ∨ depths b = None)
  ∧ (mags a = None ∨ mags b = None).

End Combined.

(** How a loader hands on the outcome of its read: an [OSError] with the
    loader's message around the cause, any other exception as it is, and a
    result exactly when the read gave one. *)
Definition hands_on {A B} (msg : string → string) (read : result A)
    (got : result B) : Prop :=
  (∀ m, got = Raise (OSError m) ↔ ∃ err, read = Raise (OSError err) ∧ m = msg err)
  ∧ (∀ e, (∀ m, e ≠ OSError m) → got = Raise e ↔ read = Raise e)
  ∧ ((∃ r, got = Ok r) ↔ ∃ df, read = Ok df).

(** A second plate-boundary file: the rows of [plates_rows] with the plates
    in another order. *)
Definition plates_rows_regrouped : list (@plate_row Q) :=
  [ {| name := NStr "AF"; lat := 1%Q; lon := 2%Q |};
    {| name := NStr "AF"; lat := 5%Q; lon := 6%Q |};
    {| name := NStr "EU"; lat := 3%Q; lon := 4%Q |} ].

Definition plates_disk_two (path : string) : result (list (@plate_row Q)) :=
  if decide (path = "plates.csv") then Ok plates_rows
  else if decide (path = "regrouped.csv") then Ok plates_rows_regrouped
  else Raise (OSError "No such file or directory").

(** A coastline file and a catalogue file. *)
Definition coast_rows : list (@Coastlines.coast_row Q) :=
  [ {| Coastlines.lon := 10%Q; Coastlines.lat := 50%Q |};
    {| Coastlines.lon := 11%Q; Coastlines.lat := 51%Q |} ].

Definition coast_disk (path : string) : result (list (@Coastlines.coast_row Q)) :=
  if decide (path = "coasts.csv") then Ok coast_rows
  else Raise (OSError "No such file or directory").

Definition quake_disk (path : string) : result (list (@row pandas_Q)) :=
  if decide (path = "quakes.csv") then Ok catalogue
  else if decide (path = "broken.csv") then Raise (ValueError "Error tokenizing data")
  else Raise (OSError "No such file or directory").

(** * Properties *)

(** ** The [result] monad *)

Lemma bind_Ok_inv {A B} (m : result A) (k : A → result B) (b : B) :
  bind m k = Ok b → ∃ a, m = Ok a ∧ k a = Ok b.
Proof. destruct m as [a|e]; simpl; [eauto | discriminate]. Qed.

Lemma traverse_Ok_Forall2 {A B} (f : A → result B) (l : list A) (l' : list B) :
  traverse f l = Ok l' ↔ Forall2 (fun a b => f a = Ok b) l l'.
Proof.
  revert l'. induction l as [|a l IH]; intros l'; simpl.
  - split.
    + intros [= <-]. constructor.
    + intros Hl. by inv Hl.
  - split.
    + intros (b & Hb & Hk)%bind_Ok_inv.
      apply bind_Ok_inv in Hk as (bs & Hbs & [= <-]).
      constructor; [done | by apply IH].
    + intros Hl. inv Hl. rewrite H1. simpl.
      match goal with Hr : Forall2 _ l _ |- _ => apply IH in Hr; rewrite Hr end.
      done.
Qed.

Lemma traverse_length {A B} (f : A → result B) (l : list A) (l' : list B) :
  traverse f l = Ok l' → length l' = length l.
Proof.
  intros Hl%traverse_Ok_Forall2. symmetry. by eapply Forall2_length.
Qed.

Lemma traverse_total {A B} (f : A → result B) (l : list A) :
  (∀ a, a ∈ l → ∃ b, f a = Ok b) → ∃ l', traverse f l = Ok l'.
Proof.
  induction l as [|a l IH]; intros Hall; simpl; [eauto|].
  destruct (Hall a) as [b Hb]; [left|]. rewrite Hb. simpl.
  destruct IH as [bs Hbs]; [intros; apply Hall; by right|].
  rewrite Hbs. simpl. eauto.
Qed.

Lemma traverse_Raise_elem {A B} (f : A → result B) (l : list A) (e : exn) :
  traverse f l = Raise e → ∃ a, a ∈ l ∧ f a = Raise e.
Proof.
  induction l as [|a l IH]; simpl; [discriminate|].
  destruct (f a) as [b|e'] eqn:Hfa; simpl.
  - destruct (traverse f l) as [bs|e'] eqn:Hl; simpl; [discriminate|].
    intros [= ->]. destruct IH as (x & Hx & Hfx); [done|].
    exists x. split; [by right | done].
  - intros [= ->]. exists a. split; [left | done].
Qed.

(** ** Masks and filters *)

Section CatalogueFacts.
Context `{Pandas}.
Implicit Types (df out : DataFrame) (a b : ranges) (x y : row).

Lemma mask_and_map (p q : row → bool) df :
  mask_and (map p df) (map q df) = map (fun x => p x && q x) df.
Proof. induction df as [|x df IH]; simpl; [done | by f_equal]. Qed.

Lemma getitem_mask_map (p : row → bool) df :
  getitem_mask df (map p df) = filter (fun x => Is_true (p x)) df.
Proof.
  induction df as [|x df IH]; [done|].
  cbn [map getitem_mask]. rewrite filter_cons, IH.
  by destruct (p x).
Qed.

Lemma narrow_filter (f : row → num) (r : option (num * num)) df :
  narrow f r df = filter (fun x => Is_true (in_range f r x)) df.
Proof.
  destruct r as [[lo hi]|]; simpl.
  - unfold ge_scalar, le_scalar, column. rewrite !map_map.
    rewrite (mask_and_map (fun x => leb lo (f x)) (fun x => leb (f x) hi)).
    apply getitem_mask_map.
  - induction df as [|x df IH]; [done|].
    rewrite filter_cons_True by done. by f_equal.
Qed.

Lemma set_Time_same x t : same_but_Time x (set_Time x t).
Proof. by repeat split. Qed.

Lemma reparsed_same x : same_but_Time x (reparsed x).
Proof.
  unfold reparsed. destruct (to_datetime (Time x)); [apply set_Time_same|].
  by repeat split.
Qed.

Lemma setitem_Time_reparsed df (col : list instant) :
  Forall2 (fun c t => to_datetime c = Ok t) (column Time df) col →
  setitem_Time df col = map reparsed df.
Proof.
  revert col. induction df as [|x df IH]; intros col Hcol; simpl in *.
  - by inv Hcol.
  - inv Hcol. unfold setitem_Time in *. simpl. f_equal; [|by apply IH].
    unfold reparsed. by rewrite H2.
Qed.

Lemma filter_map_commute (g : row → row) (p : row → bool) df :
  filter (fun x => Is_true (p x)) (map g df)
  = map g (filter (fun x => Is_true (p (g x))) df).
Proof.
  induction df as [|x df IH]; [done|].
  cbn [map]. rewrite !filter_cons, IH. by destruct (p (g x)).
Qed.

Lemma filter_bool_ext (p q : row → bool) df :
  (∀ x, p x = q x) →
  filter (fun x => Is_true (p x)) df = filter (fun x => Is_true (q x)) df.
Proof. intros Hpq. apply list_filter_iff. intros x. by rewrite Hpq. Qed.

Lemma filter_bool_and (p q : row → bool) df :
  filter (fun x => Is_true (p x)) (filter (fun x => Is_true (q x)) df)
  = filter (fun x => Is_true (q x && p x)) df.
Proof.
  rewrite list_filter_filter. apply list_filter_iff. intros x.
  rewrite andb_True. tauto.
Qed.

(** The test the [times] step makes on a converted row is [in_times] of the
    row before conversion. *)
Lemma stamp_test_in_times (t0 t1 : time_cell) (lo hi : instant) x :
  to_datetime t0 = Ok lo → to_datetime t1 = Ok hi →
  stamp_leb (TStamp lo) (Time (reparsed x))
  && stamp_leb (Time (reparsed x)) (TStamp hi)
  = in_times (Some (t0, t1)) x.
Proof.
  intros H0 H1. unfold in_times, reparsed. rewrite H0, H1.
  destruct (to_datetime (Time x)) as [t|e] eqn:Hx; [done|].
  destruct (Time x) as [s|t]; [done | discriminate].
Qed.

Lemma narrow_times_Ok (r : option (time_cell * time_cell)) df out :
  narrow_times r df = Ok out →
  out = map (fun x => match r with None => x | Some _ => reparsed x end)
            (filter (fun x => Is_true (in_times r x)) df).
Proof.
  destruct r as [[t0 t1]|]; simpl.
  - intros (col & Hcol & Hk)%bind_Ok_inv.
    apply bind_Ok_inv in Hk as (lo & Hlo & Hk).
    apply bind_Ok_inv in Hk as (hi & Hhi & [= <-]).
    apply traverse_Ok_Forall2 in Hcol.
    rewrite (setitem_Time_reparsed df col Hcol).
    unfold ge_scalar, le_scalar, column. rewrite !map_map.
    rewrite (mask_and_map
               (fun x => stamp_leb (TStamp lo) (Time (reparsed x)))
               (fun x => stamp_leb (Time (reparsed x)) (TStamp hi))).
    rewrite <- (map_map reparsed
      (fun y => stamp_leb (TStamp lo) (Time y) && stamp_leb (Time y) (TStamp hi))).
    rewrite getitem_mask_map, filter_map_commute. f_equal.
    apply filter_bool_ext. intros x. by apply stamp_test_in_times.
  - intros [= <-]. rewrite map_id.
    induction df as [|x df IH]; [done|].
    rewrite filter_cons_True by done. by f_equal.
Qed.

Lemma in_range_as_returned (f : row → num) (r : option (num * num)) a x :
  (∀ y t, f (set_Time y t) = f y) →
  in_range f r (as_returned a x) = in_range f r x.
Proof.
  intros Hf. unfold as_returned, reparsed, in_range.
  destruct (times a); [|done].
  destruct (to_datetime (Time x)); [|done]. by rewrite Hf.
Qed.

(** What a call returns, when it returns: the rows that satisfy every
    supplied range, in order, each as [as_returned] gives it. *)
Lemma select_quake_subset_Ok df a out :
  select_quake_subset df a = Ok out →
  out = map (as_returned a) (filter (fun x => Is_true (satisfies a x)) df).
Proof.
  unfold select_quake_subset.
  intros (d & Hd%narrow_times_Ok & [= <-])%bind_Ok_inv. subst d.
  rewrite !narrow_filter.
  change (fun x => match times a with None => x | Some _ => reparsed x end)
    with (as_returned a).
  rewrite (filter_map_commute (as_returned a) (in_range Longitude (lons a))).
  rewrite (filter_map_commute (as_returned a) (in_range Latitude (lats a))).
  rewrite (filter_map_commute (as_returned a) (in_range Depth (depths a))).
  rewrite (filter_map_commute (as_returned a) (in_range Magnitude (mags a))).
  f_equal. rewrite !filter_bool_and.
  apply filter_bool_ext. intros x. unfold satisfies.
  rewrite !in_range_as_returned by done. by rewrite !andb_assoc.
Qed.

(** When a call returns, and with what it raises. *)
Lemma select_quake_subset_returns df a :
  (times a = None ∨
   ∃ t0 t1 lo hi, times a = Some (t0, t1) ∧ Time_parses df
                  ∧ to_datetime t0 = Ok lo ∧ to_datetime t1 = Ok hi)
  ↔ ∃ out, select_quake_subset df a = Ok out.
Proof.
  unfold select_quake_subset, narrow_times. split.
  - intros [Ha | (t0 & t1 & lo & hi & Ha & Hdf & H0 & H1)]; rewrite Ha; simpl.
    + eauto.
    + destruct (traverse_total to_datetime (column Time df)) as [col Hcol].
      { intros c (x & -> & Hx)%list_elem_of_fmap. by apply Hdf. }
      rewrite Hcol, H0, H1. simpl. eauto.
  - intros [out Hout]. destruct (times a) as [[t0 t1]|]; [right | by left].
    apply bind_Ok_inv in Hout as (d & Hd & _).
    apply bind_Ok_inv in Hd as (col & Hcol & Hk).
    apply bind_Ok_inv in Hk as (lo & Hlo & Hk).
    apply bind_Ok_inv in Hk as (hi & Hhi & _).
    exists t0, t1, lo, hi. repeat split; try done.
    intros x Hx. apply traverse_Ok_Forall2 in Hcol.
    assert (Hc : Time x ∈ column Time df) by (apply list_elem_of_fmap; eauto).
    eapply Forall2_Forall_l with (Q := fun c => ∃ t, to_datetime c = Ok t)
      in Hcol.
    * eapply Forall_forall in Hcol; eauto.
    * apply Forall_forall. intros c Hc' t Ht. eauto.
Qed.

(** *** Conversion of a row and the tests *)

Lemma to_datetime_reparsed x :
  to_datetime (Time (reparsed x)) = to_datetime (Time x).
Proof.
  unfold reparsed. by destruct (to_datetime (Time x)) as [t|e] eqn:Hx.
Qed.

Lemma reparsed_idem x : reparsed (reparsed x) = reparsed x.
Proof.
  unfold reparsed at 1. rewrite to_datetime_reparsed.
  unfold reparsed. by destruct (to_datetime (Time x)) as [t|e] eqn:Hx.
Qed.

Lemma as_returned_commute a b x :
  as_returned b (as_returned a x) = as_returned a (as_returned b x).
Proof.
  unfold as_returned. by destruct (times a), (times b).
Qed.

Lemma to_datetime_as_returned a x :
  to_datetime (Time (as_returned a x)) = to_datetime (Time x).
Proof.
  unfold as_returned. destruct (times a); [apply to_datetime_reparsed | done].
Qed.

Lemma satisfies_as_returned a b x :
  satisfies b (as_returned a x) = satisfies b x.
Proof.
  unfold satisfies. rewrite !in_range_as_returned by done.
  do 4 f_equal. unfold in_times. destruct (times b) as [[t0 t1]|]; [|done].
  by rewrite to_datetime_as_returned.
Qed.

Lemma as_returned_same a x : same_but_Time x (as_returned a x).
Proof.
  unfold as_returned. destruct (times a); [apply reparsed_same|].
  by repeat split.
Qed.

Lemma Time_parses_as_returned a df :
  Time_parses df →
  Time_parses (map (as_returned a) (filter (fun x => Is_true (satisfies a x)) df)).
Proof.
  intros Hdf y (x & -> & Hx)%list_elem_of_fmap.
  apply list_elem_of_filter in Hx as [_ Hx].
  rewrite to_datetime_as_returned. by apply Hdf.
Qed.

(** One call after another, when each returns by itself. *)
Lemma select_then_Ok a b df da db :
  select_quake_subset df a = Ok da →
  select_quake_subset df b = Ok db →
  select_then a b df
  = Ok (map (fun x => as_returned b (as_returned a x))
            (filter (fun x => Is_true (satisfies a x && satisfies b x)) df)).
Proof.
  intros Ha Hb. unfold select_then. rewrite Ha. simpl.
  assert (Hret : ∃ out, select_quake_subset da b = Ok out).
  { apply select_quake_subset_returns.
    assert (Hb' : ∃ out, select_quake_subset df b = Ok out) by eauto.
    apply select_quake_subset_returns in Hb'
      as [Hn | (t0 & t1 & lo & hi & Ht & Hdf & H0 & H1)]; [by left | right].
    exists t0, t1, lo, hi. repeat split; try done.
    rewrite (select_quake_subset_Ok _ _ _ Ha).
    by apply Time_parses_as_returned. }
  destruct Hret as [out Hout]. rewrite Hout. f_equal.
  rewrite (select_quake_subset_Ok _ _ _ Hout).
  rewrite (select_quake_subset_Ok _ _ _ Ha).
  rewrite (filter_map_commute (as_returned a) (satisfies b)).
  rewrite map_map, filter_bool_and. f_equal.
  apply filter_bool_ext. intros x. by rewrite satisfies_as_returned.
Qed.

(** *** The claims on the range filter *)

(** C1, in the form that holds: the table returned is a sub-sequence, in
    order, of the source table with its [Time] column converted: every surviving row
    agrees with its source row on every column other than [Time]; its
    [Time] cell is the source cell when [times] is not supplied, and the
    instant the source cell parses to when it is. *)
Theorem select_quake_subset_subsequence df a out :
  select_quake_subset df a = Ok out →
  ∃ src,
    out `sublist_of` src
    ∧ Forall2 (fun x y =>
                 same_but_Time x y
                 ∧ match times a with
                   | None => Time y = Time x
                   | Some _ => ∃ t, to_datetime (Time x) = Ok t
                                    ∧ Time y = TStamp t
                   end) df src.
Proof.
  intros Hout. exists (map (as_returned a) df). split.
  - rewrite (select_quake_subset_Ok _ _ _ Hout).
    apply (fmap_sublist (as_returned a)), sublist_filter.
  - assert (Hret : ∃ o, select_quake_subset df a = Ok o) by eauto.
    apply select_quake_subset_returns in Hret.
    apply Forall2_fmap_r, Forall_Forall2_diag, Forall_forall.
    intros x Hx. split; [apply as_returned_same|].
    unfold as_returned.
    destruct Hret as [Hn | (t0 & t1 & lo & hi & Ht & Hdf & _)].
    + by rewrite Hn.
    + rewrite Ht. destruct (Hdf x Hx) as [t Hxt]. exists t. split; [done|].
      unfold reparsed. by rewrite Hxt.
Qed.


(** C3: with none of the five ranges supplied the table returned equals
    the input table. *)
Theorem select_quake_subset_identity df :
  select_quake_subset df no_ranges = Ok df.
Proof. reflexivity. Qed.

(** C4, in the form that holds: two filters that supply numeric ranges only
    ([times] absent in both) return on every table, and applying one and
    then the other returns the same table in either order. *)
Theorem select_quake_subset_commute_numeric df a b :
  times a = None → times b = None →
  ∃ out, select_then a b df = Ok out ∧ select_then b a df = Ok out.
Proof.
  intros Ha Hb.
  destruct (proj1 (select_quake_subset_returns df a)) as [da Hda]; [by left|].
  destruct (proj1 (select_quake_subset_returns df b)) as [db Hdb]; [by left|].
  eexists. split; [by eapply select_then_Ok|].
  rewrite (select_then_Ok b a df db da Hdb Hda). f_equal.
  erewrite (filter_bool_ext (fun x => satisfies b x && satisfies a x)).
  - apply map_ext. intros x. apply as_returned_commute.
  - intros x. apply andb_comm.
Qed.

(** The extractor hands back five sequences as long as the table, the
    numeric ones being the columns and the fifth the instants of the
    [Time] cells, row by row. *)
Lemma parse_earthquakes_to_np_Ok df lats lons depths magnitudes times :
  parse_earthquakes_to_np df = Ok (lats, lons, depths, magnitudes, times) →
  lats = map Latitude df ∧ lons = map Longitude df
  ∧ depths = map Depth df ∧ magnitudes = map Magnitude df
  ∧ Forall2 (fun x t => to_datetime (Time x) = Ok t) df times
  ∧ length lats = length df ∧ length lons = length df
  ∧ length depths = length df ∧ length magnitudes = length df
  ∧ length times = length df.
Proof.
  unfold parse_earthquakes_to_np.
  intros (ts & Hts & [= <- <- <- <- <-])%bind_Ok_inv.
  unfold column. rewrite !length_map.
  pose proof (traverse_length _ _ _ Hts) as Hlen.
  unfold column in Hlen. rewrite length_map in Hlen.
  apply traverse_Ok_Forall2 in Hts. unfold column in Hts.
  apply Forall2_fmap_l in Hts. done.
Qed.

End CatalogueFacts.

(** ** The range filter on the store *)

Section HeapFacts.
Context `{Pandas}.
Implicit Types (σ : gmap Heap.loc (list row)) (l : Heap.loc) (a : ranges).

Lemma agree_refl σ : Heap.agree σ σ.
Proof. by intros l _. Qed.

Lemma agree_dom σ0 σ l : Heap.agree σ0 σ → l ∈ dom σ0 → l ∈ dom σ.
Proof.
  intros Hag Hl. apply elem_of_dom. rewrite (Hag l Hl). by apply elem_of_dom.
Qed.

Lemma agree_insert σ0 σ l (df : list row) :
  Heap.agree σ0 σ → l ∉ dom σ0 → Heap.agree σ0 (<[l := df]> σ).
Proof.
  intros Hag Hl l' Hl'. rewrite lookup_insert_ne; [by apply Hag|].
  intros ->. done.
Qed.

Lemma new_frame_run σ0 σ (df : list row) :
  Heap.agree σ0 σ →
  ∃ l σ', Heap.new_frame df σ = (Ok l, σ') ∧ Heap.working σ0 σ' l df.
Proof.
  intros Hag. unfold Heap.new_frame.
  pose proof (is_fresh (dom σ)) as Hfresh.
  assert (Hl : fresh (dom σ) ∉ dom σ0).
  { intros Hin. apply Hfresh. by eapply agree_dom. }
  eexists _, _. split; [done|]. repeat split.
  - by apply agree_insert.
  - done.
  - apply lookup_insert_eq.
Qed.

Lemma narrow_run σ0 σ l cur (f : row → num) (r : option (num * num)) :
  Heap.working σ0 σ l cur →
  ∃ l' σ', Heap.narrow f r l σ = (Ok l', σ') ∧ Heap.working σ0 σ' l' (narrow f r cur).
Proof.
  intros (Hag & Hl & Hcur). destruct r as [[lo hi]|]; simpl.
  - unfold Heap.mbind, Heap.getitem_mask_at, Heap.mbind, Heap.frame.
    rewrite Hcur. simpl. by apply new_frame_run.
  - unfold Heap.ret. by eexists _, _.
Qed.

Lemma narrow_times_run σ0 σ l cur (t : option (time_cell * time_cell)) :
  Heap.working σ0 σ l cur →
  ∃ σ', Heap.agree σ0 σ'
    ∧ match narrow_times t cur with
      | Ok out => ∃ l', Heap.narrow_times t l σ = (Ok l', σ')
                        ∧ Heap.working σ0 σ' l' out
      | Raise e => Heap.narrow_times t l σ = (Raise e, σ')
      end.
Proof.
  intros (Hag & Hl & Hcur). destruct t as [[t0 t1]|]; simpl.
  - unfold Heap.mbind, Heap.frame, Heap.lift, Heap.setitem_Time_at,
      Heap.getitem_mask_at, Heap.mbind, Heap.frame.
    rewrite Hcur. cbn [default from_option id].
    destruct (traverse to_datetime (column Time cur)) as [col|e]; cbn [bind];
      [|exists σ; by split].
    set (σ1 := <[l := setitem_Time cur col]> σ).
    assert (Hag1 : Heap.agree σ0 σ1) by (by apply agree_insert).
    destruct (to_datetime t0) as [lo|e]; cbn [bind]; [|exists σ1; by split].
    destruct (to_datetime t1) as [hi|e]; cbn [bind]; [|exists σ1; by split].
    unfold σ1 at 1 2 3. rewrite lookup_insert_eq. cbn [default from_option id]. fold σ1.
    destruct (new_frame_run σ0 σ1
      (getitem_mask (setitem_Time cur col)
         (mask_and
            (ge_scalar stamp_leb (column Time (setitem_Time cur col)) (TStamp lo))
            (le_scalar stamp_leb (column Time (setitem_Time cur col)) (TStamp hi))))
      Hag1)
      as (l' & σ' & Hrun & Hw).
    exists σ'. split; [apply Hw|]. eauto.
  - exists σ. split; [done|]. exists l. by split.
Qed.

Lemma mbind_Ok {A B} (m : Heap.M A) (k : A → Heap.M B) σ (x : A) σ1 :
  m σ = (Ok x, σ1) → Heap.mbind m k σ = k x σ1.
Proof. intros Hm. unfold Heap.mbind. by rewrite Hm. Qed.

Lemma mbind_Raise {A B} (m : Heap.M A) (k : A → Heap.M B) σ (e : exn) σ1 :
  m σ = (Raise e, σ1) → Heap.mbind m k σ = (Raise e, σ1).
Proof. intros Hm. unfold Heap.mbind. by rewrite Hm. Qed.

Lemma copy_run σ l :
  ∃ l' σ', Heap.copy l σ = (Ok l', σ')
           ∧ Heap.working σ σ' l' (default [] (σ !! l)).
Proof.
  unfold Heap.copy, Heap.mbind, Heap.frame.
  apply new_frame_run, agree_refl.
Qed.

(** The call on the store returns what [select_quake_subset] returns on the
    rows of [df], in a frame that did not exist before, and leaves every
    frame that did as it was. *)
Lemma heap_select_quake_subset_run σ l a :
  ∃ σ', Heap.agree σ σ'
    ∧ match select_quake_subset (default [] (σ !! l)) a with
      | Ok out => ∃ l', Heap.select_quake_subset l a σ = (Ok l', σ')
                        ∧ (l' ∉ dom σ) ∧ (σ' !! l' = Some out)
      | Raise e => Heap.select_quake_subset l a σ = (Raise e, σ')
      end.
Proof.
  unfold Heap.select_quake_subset, select_quake_subset.
  destruct (copy_run σ l) as (l0 & σ0 & Hrun0 & Hw0).
  rewrite (mbind_Ok _ _ _ _ _ Hrun0).
  destruct (narrow_times_run σ σ0 l0 _ (times a) Hw0) as (σ1 & Hag1 & Hrun1).
  destruct (narrow_times (times a) (default [] (σ !! l))) as [d1|e];
    cbn [bind].
  - destruct Hrun1 as (l1 & Hrun1 & Hw1).
    rewrite (mbind_Ok _ _ _ _ _ Hrun1).
    destruct (narrow_run σ σ1 l1 _ Longitude (lons a) Hw1)
      as (l2 & σ2 & Hrun2 & Hw2).
    rewrite (mbind_Ok _ _ _ _ _ Hrun2).
    destruct (narrow_run σ σ2 l2 _ Latitude (lats a) Hw2)
      as (l3 & σ3 & Hrun3 & Hw3).
    rewrite (mbind_Ok _ _ _ _ _ Hrun3).
    destruct (narrow_run σ σ3 l3 _ Depth (depths a) Hw3)
      as (l4 & σ4 & Hrun4 & Hw4).
    rewrite (mbind_Ok _ _ _ _ _ Hrun4).
    destruct (narrow_run σ σ4 l4 _ Magnitude (mags a) Hw4)
      as (l5 & σ5 & Hrun5 & (Hag5 & Hl5 & Hcur5)).
    rewrite (mbind_Ok _ _ _ _ _ Hrun5). unfold Heap.ret.
    exists σ5. split; [done|]. exists l5. by repeat split.
  - rewrite (mbind_Raise _ _ _ _ _ Hrun1). exists σ1. by split.
Qed.

(** C9: the call leaves the source table, and every other table that
    existed before it, cell for cell as it was; what it returns is a table
    that did not exist before, holding the rows of the value-level
    [select_quake_subset]. *)
Theorem select_quake_subset_no_mutation σ (df : Heap.loc) a (T : list row) :
  σ !! df = Some T →
  ∃ r σ',
    Heap.select_quake_subset df a σ = (r, σ')
    ∧ σ' !! df = Some T
    ∧ (∀ l, l ∈ dom σ → σ' !! l = σ !! l)
    ∧ match r with
      | Ok l' => l' ≠ df ∧ σ !! l' = None
                 ∧ ∃ out, select_quake_subset T a = Ok out
                          ∧ σ' !! l' = Some out
      | Raise e => select_quake_subset T a = Raise e
      end.
Proof.
  intros HT. destruct (heap_select_quake_subset_run σ df a) as (σ' & Hag & Hrun).
  rewrite HT in Hrun. simpl in Hrun.
  assert (Hdf : df ∈ dom σ) by (apply elem_of_dom; eauto).
  destruct (select_quake_subset T a) as [out|e].
  - destruct Hrun as (l' & Hrun & Hl' & Hout).
    exists (Ok l'), σ'. repeat split; try done.
    + by rewrite (Hag df Hdf).
    + intros ->. done.
    + by apply not_elem_of_dom.
    + eauto.
  - exists (Raise e), σ'. repeat split; try done.
    by rewrite (Hag df Hdf).
Qed.

End HeapFacts.

(** ** The slope *)

Section SlopeFacts.
Context `{Numpy}.
Local Open Scope Qc_scope.





End SlopeFacts.

(** ** Plate boundaries *)

Section PlatesFacts.
Context {coord : Type}.
Implicit Types (df : list (@plate_row coord)) (k : name_cell).

Lemma cell_eqb_true (a b : name_cell) :
  cell_eqb a b = true ↔ a = b ∧ a ≠ NNaN.
Proof.
  unfold cell_eqb. destruct a as [s|q|].
  - rewrite bool_decide_eq_true. split; [by intros <- | tauto].
  - rewrite bool_decide_eq_true. split; [by intros <- | tauto].
  - split; [done | tauto].
Qed.

Lemma named_NaN df : named df NNaN = [].
Proof.
  unfold named. induction df as [|r df IH]; [done|].
  rewrite filter_cons_False; [done|].
  intros Heq%Is_true_true%cell_eqb_true. destruct Heq as [-> Hne]. done.
Qed.

Lemma elem_of_named df k r : r ∈ named df k ↔ r ∈ df ∧ name r = k ∧ k ≠ NNaN.
Proof.
  unfold named. rewrite list_elem_of_filter, Is_true_true, cell_eqb_true.
  split.
  - intros [[Heq Hne] Hr]. split; [done|]. split; [done | congruence].
  - intros (Hr & Heq & Hne). split; [|done]. split; [done | congruence].
Qed.

Lemma elem_of_unique_from (seen l : list name_cell) k :
  k ∈ unique_from seen l ↔ k ∈ l ∧ k ∉ seen.
Proof.
  revert seen. induction l as [|x l IH]; intros seen; simpl.
  - split; [by intros ?%elem_of_nil | by intros [?%elem_of_nil _]].
  - destruct (decide (x ∈ seen)) as [Hx|Hx].
    + rewrite IH, elem_of_cons. split; [tauto|].
      intros [[->|Hk] Hs]; [done | tauto].
    + rewrite !elem_of_cons, IH, not_elem_of_cons.
      destruct (decide (k = x)) as [->|Hne]; [tauto|]. tauto.
Qed.


Lemma elem_of_unique (l : list name_cell) k : k ∈ unique l ↔ k ∈ l.
Proof.
  unfold unique. rewrite elem_of_unique_from. split; [tauto|].
  intros Hk. split; [done | apply not_elem_of_nil].
Qed.

Lemma column_stack_lon_lat df :
  column_stack (map lon df) (map lat df) = map (fun r => (lon r, lat r)) df.
Proof. induction df as [|r df IH]; simpl; [done | by f_equal]. Qed.

Lemma plate_step_lookup df (m : gmap name_cell (list (coord * coord))) k k' :
  plate_step df m k !! k'
  = if decide (k' = k) then Some (coords_of df k) else m !! k'.
Proof.
  unfold plate_step. rewrite column_stack_lon_lat.
  destruct (decide (k' = k)) as [->|Hne].
  - by rewrite lookup_insert_eq.
  - by rewrite lookup_insert_ne.
Qed.

Lemma foldl_plate_step_lookup df (ks : list name_cell)
    (m : gmap name_cell (list (coord * coord))) k :
  foldl (plate_step df) m ks !! k
  = if decide (k ∈ ks) then Some (coords_of df k) else m !! k.
Proof.
  revert m. induction ks as [|x ks IH]; intros m; cbn [foldl].
  - rewrite decide_False; [done | apply not_elem_of_nil].
  - rewrite IH, plate_step_lookup.
    destruct (decide (k ∈ ks)) as [Hk|Hk].
    + rewrite decide_True; [done | by right].
    + destruct (decide (k = x)) as [->|Hne].
      * rewrite decide_True; [done | by left].
      * rewrite decide_False; [done|]. rewrite not_elem_of_cons. tauto.
Qed.










Variable read_csv : string → result (list (@plate_row coord)).

Lemma get_plate_boundaries_lookup (path : string) df :
  read_csv path = Ok df →
  ∃ d, get_plate_boundaries read_csv path = Ok d
       ∧ (∀ k, d !! k = if decide (k ∈ unique (map name df))
                        then Some (coords_of df k) else None)
       ∧ ∀ k, d !! k = if decide (k ∈ map name df)
                       then Some (coords_of df k) else None.
Proof.
  intros Hread. unfold get_plate_boundaries. rewrite Hread.
  eexists. split; [done|].
  assert (Hlook : ∀ k,
    foldl (plate_step df) ∅ (unique (map name df)) !! k
    = if decide (k ∈ unique (map name df))
      then Some (coords_of df k) else None).
  { intros k. by rewrite foldl_plate_step_lookup, lookup_empty. }
  split; [done|]. intros k. rewrite Hlook.
  destruct (decide (k ∈ unique (map name df))) as [Hk|Hk].
  - rewrite decide_True; [done | by apply elem_of_unique].
  - rewrite decide_False; [done | by rewrite <- elem_of_unique].
Qed.


End PlatesFacts.

(** ** Evaluation in the concrete setting *)

Example naive_iso_ok : naive_iso "2001-01-01T00:00:00" = Ok 20010101000000%Z.
Proof. reflexivity. Qed.

Example naive_iso_unknown : naive_iso "unknown" = Raise (unknown_format "unknown").
Proof. reflexivity. Qed.

Example select_year_2001 :
  select_quake_subset catalogue year_2001
  = Ok [ stamped 35 139 10 (45 # 10) 20010101000000;
         stamped 61 (-150) 25 (52 # 10) 20010615083000 ].
Proof. reflexivity. Qed.

Example select_mags_3_5 :
  select_quake_subset catalogue (only_mags 3 5)
  = Ok [ quake 35 139 10 (45 # 10) "2001-01-01T00:00:00" ].
Proof. reflexivity. Qed.

(** C1, as it is stated, fails: with [times] supplied the row handed back
    holds an instant where the source row holds a string, so the table
    returned is no sub-sequence of the rows of the source. *)
Lemma select_quake_subset_Time_rewritten :
  select_quake_subset catalogue year_2001
  = Ok [ stamped 35 139 10 (45 # 10) 20010101000000;
         stamped 61 (-150) 25 (52 # 10) 20010615083000 ]
  ∧ ¬ [ stamped 35 139 10 (45 # 10) 20010101000000;
        stamped 61 (-150) 25 (52 # 10) 20010615083000 ]
      `sublist_of` catalogue.
Proof.
  split; [reflexivity|]. intros Hsub.
  assert (Hin : stamped 35 139 10 (45 # 10) 20010101000000 ∈ catalogue).
  { eapply sublist_subseteq; [exact Hsub | left]. }
  unfold catalogue in Hin. rewrite !elem_of_cons, elem_of_nil in Hin.
  destruct Hin as [Hr | [Hr | [Hr | []]]]; discriminate Hr.
Qed.

Lemma select_quake_subset_subsequence_witness :
  ∃ src,
    [ stamped 35 139 10 (45 # 10) 20010101000000;
      stamped 61 (-150) 25 (52 # 10) 20010615083000 ] `sublist_of` src
    ∧ Forall2 (fun x y =>
                 same_but_Time x y
                 ∧ match times year_2001 with
                   | None => Time y = Time x
                   | Some _ => ∃ t, to_datetime (Time x) = Ok t
                                    ∧ Time y = TStamp t
                   end) catalogue src.
Proof.
  apply (@select_quake_subset_subsequence pandas_Q catalogue year_2001).
  reflexivity.
Defined.


(** C4, as it is stated, fails: on a table with a [Time] cell that does not
    parse in a row outside the longitudes, [times] first raises and [lons]
    first returns. *)
Lemma select_then_order_matters :
  select_then year_2001 (only_lons 100 150) catalogue_bad
  = Raise (unknown_format "unknown")
  ∧ select_then (only_lons 100 150) year_2001 catalogue_bad
    = Ok [ stamped 35 139 10 (45 # 10) 20010101000000 ]
  ∧ select_then year_2001 (only_lons 100 150) catalogue_bad
    ≠ select_then (only_lons 100 150) year_2001 catalogue_bad.
Proof. split; [reflexivity | split; [reflexivity | discriminate]]. Qed.

Lemma select_quake_subset_commute_numeric_witness :
  ∃ out, select_then (only_lons 100 150) (only_mags 3 5) catalogue = Ok out
         ∧ select_then (only_mags 3 5) (only_lons 100 150) catalogue = Ok out.
Proof.
  apply (@select_quake_subset_commute_numeric pandas_Q catalogue
           (only_lons 100 150) (only_mags 3 5)); reflexivity.
Defined.

Lemma select_quake_subset_no_mutation_witness :
  ∃ r σ',
    Heap.select_quake_subset 1%positive year_2001 memory = (r, σ')
    ∧ σ' !! 1%positive = Some catalogue
    ∧ (∀ l : Heap.loc, l ∈ dom memory → σ' !! l = memory !! l)
    ∧ match r with
      | Ok l' => l' ≠ 1%positive
                 ∧ memory !! l' = None
                 ∧ ∃ out, select_quake_subset catalogue year_2001 = Ok out
                          ∧ σ' !! l' = Some out
      | Raise e => select_quake_subset catalogue year_2001 = Raise e
      end.
Proof.
  apply (@select_quake_subset_no_mutation pandas_Q memory 1%positive
           year_2001 catalogue).
  reflexivity.
Defined.

Example plates_grouped :
  match get_plate_boundaries plates_disk "plates.csv" with
  | Ok d => d !! NStr "AF" = Some [(2, 1); (6, 5)]%Q
            ∧ d !! NStr "EU" = Some [(4, 3)]%Q
            ∧ d !! NStr "NA" = None ∧ total_length d = 3
  | Raise _ => False
  end.
Proof. vm_compute. done. Qed.

Example plates_missing :
  get_plate_boundaries plates_disk "nowhere.csv"
  = Raise (OSError (plate_read_msg "nowhere.csv" "No such file or directory")).
Proof. reflexivity. Qed.



(** * Further properties *)

(** ** More on the range filter and the extractor *)

Section CatalogueMore.
Context `{Pandas}.
Implicit Types (df out : list row) (a b : ranges) (x y : row).

(** Without [times] the call returns on every table, and what it returns is
    a sub-sequence of the rows of the table, each as it is in the table. *)
Theorem select_quake_subset_numeric df a :
  times a = None →
  ∃ out, select_quake_subset df a = Ok out
         ∧ out = filter (fun x => Is_true (satisfies a x)) df
         ∧ out `sublist_of` df.
Proof.
  intros Ha.
  destruct (proj1 (select_quake_subset_returns df a)) as [out Hout]; [by left|].
  exists out. split; [done|].
  assert (Hout' : out = filter (fun x => Is_true (satisfies a x)) df).
  { rewrite (select_quake_subset_Ok _ _ _ Hout).
    unfold as_returned. rewrite Ha. apply map_id. }
  split; [done|]. rewrite Hout'. apply sublist_filter.
Qed.

(** Filtering what a call returned once more with the same ranges returns
    the same table. *)
Theorem select_quake_subset_idempotent df a out :
  select_quake_subset df a = Ok out → select_quake_subset out a = Ok out.
Proof.
  intros Hout. pose proof (select_then_Ok a a df out out Hout Hout) as Hthen.
  unfold select_then in Hthen. rewrite Hout in Hthen. simpl in Hthen.
  rewrite Hthen. f_equal. rewrite (select_quake_subset_Ok _ _ _ Hout).
  erewrite (filter_bool_ext (fun x => satisfies a x && satisfies a x)).
  - apply map_ext. intros x. unfold as_returned.
    destruct (times a); [apply reparsed_idem | done].
  - intros x. apply andb_diag.
Qed.

Lemma in_range_pick (f : row → num) (r1 r2 : option (num * num)) x :
  r1 = None ∨ r2 = None →
  in_range f (pick r1 r2) x = in_range f r1 x && in_range f r2 x.
Proof.
  intros [-> | ->]; simpl; [done|].
  destruct r1 as [[lo hi]|]; simpl; [by rewrite andb_true_r | done].
Qed.

Lemma in_times_pick (r1 r2 : option (time_cell * time_cell)) x :
  r1 = None ∨ r2 = None →
  in_times (pick r1 r2) x = in_times r1 x && in_times r2 x.
Proof.
  intros [-> | ->]; simpl; [done|].
  destruct r1 as [[t0 t1]|]; [by rewrite andb_true_r | done].
Qed.

Lemma satisfies_both a b x :
  apart a b → satisfies (both a b) x = satisfies a x && satisfies b x.
Proof.
  intros (Ht & Hlo & Hla & Hde & Hma). unfold satisfies, both. simpl.
  rewrite in_times_pick, !in_range_pick by done.
  generalize (in_times (times a) x) (in_times (times b) x)
    (in_range Longitude (lons a) x) (in_range Longitude (lons b) x)
    (in_range Latitude (lats a) x) (in_range Latitude (lats b) x)
    (in_range Depth (depths a) x) (in_range Depth (depths b) x)
    (in_range Magnitude (mags a) x) (in_range Magnitude (mags b) x).
  intros [] [] [] [] [] [] [] [] [] []; reflexivity.
Qed.

Lemma as_returned_both a b x :
  as_returned (both a b) x = as_returned b (as_returned a x).
Proof.
  unfold as_returned, both. simpl.
  destruct (times a), (times b); simpl; try done.
  by rewrite reparsed_idem.
Qed.

(** Two calls in a row that supply numeric ranges only, on different
    columns, return what one call with all those ranges returns. *)
Theorem select_quake_subset_fuse_numeric df a b :
  times a = None → times b = None → apart a b →
  select_then a b df = select_quake_subset df (both a b).
Proof.
  intros Hta Htb Hab.
  destruct (proj1 (select_quake_subset_returns df a)) as [da Ha]; [by left|].
  destruct (proj1 (select_quake_subset_returns df b)) as [db Hb]; [by left|].
  rewrite (select_then_Ok a b df da db Ha Hb).
  destruct (proj1 (select_quake_subset_returns df (both a b))) as [out Hout].
  { left. simpl. by rewrite Hta, Htb. }
  rewrite Hout. f_equal.
  rewrite (select_quake_subset_Ok _ _ _ Hout).
  erewrite (filter_bool_ext (fun x => satisfies a x && satisfies b x)).
  - apply map_ext. intros x. symmetry. apply as_returned_both.
  - intros x. symmetry. by apply satisfies_both.
Qed.

End CatalogueMore.

(** ** The range filter on the store, without ranges *)

Section HeapMore.
Context `{Pandas}.

(** On the store, a call without ranges returns a copy: a frame at an
    address not in use before, with the rows of the source, and nothing
    else in the store changes. *)
Theorem heap_select_quake_subset_copy (σ : gmap Heap.loc (list row))
    (df : Heap.loc) (T : list row) :
  σ !! df = Some T →
  ∃ l', (l' ∉ dom σ) ∧ l' ≠ df
        ∧ Heap.select_quake_subset df no_ranges σ = (Ok l', <[l' := T]> σ).
Proof.
  intros HT. exists (fresh (dom σ)).
  pose proof (is_fresh (dom σ)) as Hfresh.
  split; [done|]. split.
  - intros Heq. apply Hfresh. rewrite Heq. apply elem_of_dom. eauto.
  - unfold Heap.select_quake_subset, Heap.narrow_times, Heap.narrow,
      Heap.copy, Heap.mbind, Heap.frame, Heap.new_frame, Heap.ret.
    simpl. by rewrite HT.
Qed.

End HeapMore.

(** ** The loaders *)

Section LoadersFacts.
Context `{Pandas} {coord : Type}.
Variable read_coasts : string → result (list (@Coastlines.coast_row coord)).
Variable read_plates : string → result (list (@plate_row coord)).
Variable read_quakes : string → result (list row).

Lemma hands_on_intro {A B} (msg : string → string) (read : result A)
    (got : result B) :
  match read with
  | Ok df => ∃ r, got = Ok r
  | Raise (OSError err) => got = Raise (OSError (msg err))
  | Raise e => got = Raise e
  end → hands_on msg read got.
Proof.
  unfold hands_on.
  destruct read as [df|[err|m'| |m'|m']]; [intros [r ->] | intros -> ..];
    repeat split; intros;
    repeat match goal with
           | Hex : ∃ _, _ |- _ => destruct Hex
           | Hand : _ ∧ _ |- _ => destruct Hand
           end;
    simplify_eq; eauto;
    exfalso; match goal with Hne : ∀ m, _ ≠ OSError m |- _ => by eapply Hne end.
Qed.

(** Each loader raises [OSError] exactly when its read did, with its own
    message naming the path around the cause; raises any other exception
    exactly when its read did, unchanged; and returns exactly when its read
    did. *)
Theorem loaders_hand_on (path : string) :
  hands_on (Coastlines.coast_read_msg path) (read_coasts path)
           (Coastlines.get_coastlines read_coasts path)
  ∧ hands_on (plate_read_msg path) (read_plates path)
             (get_plate_boundaries read_plates path)
  ∧ hands_on (quake_read_msg path) (read_quakes path)
             (get_earthquakes read_quakes path).
Proof.
  split; [|split]; apply hands_on_intro.
  - unfold Coastlines.get_coastlines.
    destruct (read_coasts path) as [df|[]]; eauto.
  - unfold get_plate_boundaries.
    destruct (read_plates path) as [df|[]]; eauto.
  - unfold get_earthquakes.
    destruct (read_quakes path) as [df|[]]; eauto.
Qed.

(** The coastline loader hands back two sequences as long as the file, which
    hold, row by row, the first and the second column of the file. *)
Theorem get_coastlines_columns (path : string)
    (df : list (@Coastlines.coast_row coord)) :
  read_coasts path = Ok df →
  ∃ lon_coast lat_coast,
    Coastlines.get_coastlines read_coasts path = Ok (lon_coast, lat_coast)
    ∧ length lon_coast = length df ∧ length lat_coast = length df
    ∧ ∀ i r, df !! i = Some r →
             lon_coast !! i = Some (Coastlines.lon r)
             ∧ lat_coast !! i = Some (Coastlines.lat r).
Proof.
  intros Hread. unfold Coastlines.get_coastlines. rewrite Hread.
  eexists _, _. split; [done|]. rewrite !length_map.
  split; [done|]. split; [done|]. intros i r Hr.
  change (map Coastlines.lon df) with (Coastlines.lon <$> df).
  change (map Coastlines.lat df) with (Coastlines.lat <$> df).
  rewrite !list_lookup_fmap, Hr. done.
Qed.

End LoadersFacts.

(** ** More on plate boundaries *)

Section PlatesMore.
Context {coord : Type}.
Variable read_csv : string → result (list (@plate_row coord)).
Implicit Types (df : list (@plate_row coord)) (k : name_cell).

Lemma named_nonempty df k :
  k ∈ map name df ∧ k ≠ NNaN ↔ named df k ≠ [].
Proof.
  split.
  - intros [(r & -> & Hr)%list_elem_of_fmap Hnan] Hnil.
    assert (Hin : r ∈ named df (name r)) by (by apply elem_of_named).
    rewrite Hnil in Hin. by apply elem_of_nil in Hin.
  - intros Hne. destruct (named df k) as [|r l] eqn:Hf; [done|].
    assert (Hin : r ∈ named df k) by (rewrite Hf; left).
    apply elem_of_named in Hin as (Hin & <- & Hnan).
    split; [|done]. apply list_elem_of_fmap. eauto.
Qed.

(** The keys of the mapping are the distinct cells of the name column, NaN
    among them when a name is missing; the key NaN holds an empty sequence
    and no other key does; a table without rows gives the empty mapping. *)
Theorem get_plate_boundaries_keys (path : string) df :
  read_csv path = Ok df →
  ∃ pb_dict,
    get_plate_boundaries read_csv path = Ok pb_dict
    ∧ (∀ k, k ∈ dom pb_dict ↔ k ∈ map name df)
    ∧ (∀ k cs, pb_dict !! k = Some cs → (cs = [] ↔ k = NNaN))
    ∧ (df = [] → pb_dict = ∅).
Proof.
  intros Hread.
  destruct (get_plate_boundaries_lookup read_csv path df Hread)
    as (d & Hget & _ & Hlook).
  exists d. split; [done|].
  assert (Hdom : ∀ k, k ∈ dom d ↔ k ∈ map name df).
  { intros k. rewrite elem_of_dom, Hlook.
    destruct (decide (k ∈ map name df)) as [Hk|Hk].
    - split; [done | eauto].
    - split; [by intros [? ?] | done]. }
  split; [done|]. split.
  - intros k cs. rewrite Hlook.
    destruct (decide (k ∈ map name df)) as [Hk|Hk]; [|done].
    intros [= <-]. unfold coords_of. split.
    + intros Hnil. destruct (decide (k = NNaN)) as [|Hnan]; [done|].
      assert (Hne : named df k ≠ []) by (by apply named_nonempty).
      destruct (named df k); done.
    + intros ->. by rewrite named_NaN.
  - intros ->. apply map_eq. intros k. rewrite Hlook, lookup_empty.
    rewrite decide_False; [done | apply not_elem_of_nil].
Qed.

(** The mapping depends on the rows of each plate in their order only, not
    on how the plates are interleaved: two tables whose rows, name by name,
    are the same, and which both have or both lack a row with a missing
    name, give the same mapping. *)
Theorem get_plate_boundaries_grouping (path1 path2 : string) df1 df2 :
  read_csv path1 = Ok df1 →
  read_csv path2 = Ok df2 →
  (∀ k, named df1 k = named df2 k) →
  (NNaN ∈ map name df1 ↔ NNaN ∈ map name df2) →
  get_plate_boundaries read_csv path1 = get_plate_boundaries read_csv path2.
Proof.
  intros H1 H2 Hsame Hnan.
  destruct (get_plate_boundaries_lookup read_csv path1 df1 H1)
    as (d1 & -> & _ & Hl1).
  destruct (get_plate_boundaries_lookup read_csv path2 df2 H2)
    as (d2 & -> & _ & Hl2).
  f_equal. apply map_eq. intros k. rewrite Hl1, Hl2.
  unfold coords_of. rewrite Hsame.
  assert (Hk12 : k ∈ map name df1 ↔ k ∈ map name df2).
  { destruct (decide (k = NNaN)) as [->|Hk]; [done|]. split; intros Hin.
    - apply (named_nonempty df2 k). rewrite <- Hsame.
      by apply named_nonempty.
    - apply (named_nonempty df1 k). rewrite Hsame.
      by apply named_nonempty. }
  destruct (decide (k ∈ map name df1)) as [Hk|Hk].
  - rewrite decide_True; [done | by apply Hk12].
  - rewrite decide_False; [done|]. by rewrite <- Hk12.
Qed.

End PlatesMore.

(** ** The further properties in the concrete setting *)

Lemma select_quake_subset_numeric_witness :
  ∃ out, select_quake_subset catalogue (only_mags 3 5) = Ok out
         ∧ out = filter (fun x => Is_true (satisfies (only_mags 3 5) x)) catalogue
         ∧ out `sublist_of` catalogue.
Proof.
  apply (@select_quake_subset_numeric pandas_Q catalogue (only_mags 3 5)).
  reflexivity.
Defined.

Lemma select_quake_subset_idempotent_witness :
  select_quake_subset
    [ stamped 35 139 10 (45 # 10) 20010101000000;
      stamped 61 (-150) 25 (52 # 10) 20010615083000 ] year_2001
  = Ok [ stamped 35 139 10 (45 # 10) 20010101000000;
         stamped 61 (-150) 25 (52 # 10) 20010615083000 ].
Proof.
  apply (@select_quake_subset_idempotent pandas_Q catalogue year_2001).
  reflexivity.
Defined.

Lemma select_quake_subset_fuse_numeric_witness :
  select_then (only_lons 100 150) (only_mags 3 5) catalogue
  = select_quake_subset catalogue (both (only_lons 100 150) (only_mags 3 5)).
Proof.
  apply (@select_quake_subset_fuse_numeric pandas_Q catalogue
           (only_lons 100 150) (only_mags 3 5)).
  - reflexivity.
  - reflexivity.
  - unfold apart. simpl. tauto.
Defined.

Lemma parse_earthquakes_to_np_Ok_witness :
  [35; -33; 61]%Q = map Latitude catalogue
  ∧ [139; -70; -150]%Q = map Longitude catalogue
  ∧ [10; 30; 25]%Q = map Depth catalogue
  ∧ [45 # 10; 6; 52 # 10]%Q = map Magnitude catalogue
  ∧ Forall2 (fun x t => to_datetime (Time x) = Ok t) catalogue
      [20010101000000; 20030505120000; 20010615083000]%Z
  ∧ length [35; -33; 61]%Q = length catalogue
  ∧ length [139; -70; -150]%Q = length catalogue
  ∧ length [10; 30; 25]%Q = length catalogue
  ∧ length [45 # 10; 6; 52 # 10]%Q = length catalogue
  ∧ length [20010101000000; 20030505120000; 20010615083000]%Z
    = length catalogue.
Proof.
  apply (@parse_earthquakes_to_np_Ok pandas_Q catalogue).
  reflexivity.
Defined.

Lemma heap_select_quake_subset_copy_witness :
  ∃ l', (l' ∉ dom memory) ∧ l' ≠ 1%positive
        ∧ Heap.select_quake_subset 1%positive no_ranges memory
          = (Ok l', <[l' := catalogue]> memory).
Proof.
  apply (@heap_select_quake_subset_copy pandas_Q memory 1%positive catalogue).
  reflexivity.
Defined.

Lemma get_coastlines_columns_witness :
  ∃ lon_coast lat_coast,
    Coastlines.get_coastlines coast_disk "coasts.csv" = Ok (lon_coast, lat_coast)
    ∧ length lon_coast = length coast_rows
    ∧ length lat_coast = length coast_rows
    ∧ ∀ i r, coast_rows !! i = Some r →
             lon_coast !! i = Some (Coastlines.lon r)
             ∧ lat_coast !! i = Some (Coastlines.lat r).
Proof.
  apply (get_coastlines_columns coast_disk "coasts.csv" coast_rows).
  reflexivity.
Defined.

Lemma get_plate_boundaries_keys_witness :
  ∃ pb_dict,
    get_plate_boundaries plates_disk "missing.csv" = Ok pb_dict
    ∧ (∀ k, k ∈ dom pb_dict ↔ k ∈ map name plates_rows_missing)
    ∧ (∀ k cs, pb_dict !! k = Some cs → (cs = [] ↔ k = NNaN))
    ∧ (plates_rows_missing = [] → pb_dict = ∅).
Proof.
  apply (get_plate_boundaries_keys plates_disk "missing.csv"
           plates_rows_missing).
  reflexivity.
Defined.

Lemma get_plate_boundaries_grouping_witness :
  get_plate_boundaries plates_disk_two "plates.csv"
  = get_plate_boundaries plates_disk_two "regrouped.csv".
Proof.
  apply (get_plate_boundaries_grouping plates_disk_two "plates.csv"
           "regrouped.csv" plates_rows plates_rows_regrouped).
  - reflexivity.
  - reflexivity.
  - intros k. unfold named, plates_rows, plates_rows_regrouped.
    rewrite !filter_cons, !filter_nil. simpl.
    destruct (bool_decide (NStr "AF" = k)) eqn:Haf,
      (bool_decide (NStr "EU" = k)) eqn:Heu; simpl; try done.
    apply bool_decide_eq_true in Haf, Heu. congruence.
  - split; intros Hin; exfalso; simpl in Hin;
      repeat (apply elem_of_cons in Hin as [Hin|Hin]; [discriminate Hin|]);
      by apply elem_of_nil in Hin.
Defined.

(** ** The slope on Python's numbers *)

(** *** Rounding to binary64 *)

Section PyFloat.
Import Py.
Local Open Scope Z_scope.

Lemma digits2_pos_size (p : positive) : digits2_pos p = Pos.size p.
Proof. induction p as [p IH|p IH|]; simpl; by rewrite ?IH. Qed.

Lemma digits2_pos_le (p : positive) : 2 ^ (Zpos (digits2_pos p) - 1) ≤ Zpos p.
Proof.
  rewrite digits2_pos_size.
  pose proof (Pos.size_le p) as Hle.
  assert (H2 : (2 ^ Zpos (Pos.size p) ≤ 2 * Zpos p)%Z).
  { rewrite <- Pos2Z.inj_pow. change (2 * Zpos p) with (Zpos p~0). lia. }
  replace (Zpos (Pos.size p)) with (Zpos (Pos.size p) - 1 + 1) in H2 by lia.
  rewrite Z.pow_add_r in H2 by lia. lia.
Qed.

Lemma shr_1_m (mrs : shr_record) :
  0 ≤ shr_m mrs → shr_m (shr_1 mrs) = shr_m mrs / 2.
Proof.
  destruct mrs as [m r s]. simpl. intros Hm.
  destruct m as [|[p|p|]|p]; simpl; try done; try lia.
  - rewrite Pos2Z.inj_xI. apply Z.div_unique with (r := 1); lia.
  - rewrite Pos2Z.inj_xO. apply Z.div_unique with (r := 0); lia.
Qed.

Lemma iter_pos_shr_m (n : positive) (mrs : shr_record) :
  0 ≤ shr_m mrs →
  shr_m (SpecFloat.iter_pos shr_1 n mrs) = shr_m mrs / 2 ^ Zpos n.
Proof.
  revert mrs. induction n as [n IH|n IH|]; intros mrs Hm; simpl.
  - assert (H1 : 0 ≤ shr_m (shr_1 mrs)).
    { rewrite shr_1_m by done. apply Z.div_pos; lia. }
    assert (H2 : 0 ≤ shr_m (SpecFloat.iter_pos shr_1 n (shr_1 mrs))).
    { rewrite IH by done. apply Z.div_pos; lia. }
    rewrite IH, IH, shr_1_m by done.
    rewrite !Z.div_div by lia. f_equal.
    rewrite <- Z.pow_add_r by lia.
    rewrite <- (Z.pow_succ_r 2) by lia. f_equal. lia.
  - assert (H2 : 0 ≤ shr_m (SpecFloat.iter_pos shr_1 n mrs)).
    { rewrite IH by done. apply Z.div_pos; lia. }
    rewrite IH, IH by done.
    rewrite !Z.div_div by lia. f_equal.
    rewrite <- Z.pow_add_r by lia. f_equal. lia.
  - by rewrite shr_1_m.
Qed.


Lemma shr_m_record_of_loc (m : Z) (l : location) :
  shr_m (shr_record_of_loc m l) = m.
Proof. by destruct l as [|[]]. Qed.


Lemma round_nearest_even_ge (m : Z) (l : location) :
  m ≤ round_nearest_even m l.
Proof. destruct l as [|[]]; simpl; try lia. destruct (Z.even m); lia. Qed.





Lemma digits2_pos_lt (p : positive) : Zpos p < 2 ^ Zpos (digits2_pos p).
Proof.
  rewrite digits2_pos_size. pose proof (Pos.size_gt p) as Hgt.
  rewrite <- Pos2Z.inj_pow. lia.
Qed.

Lemma digits2_pos_bound (p : positive) (k : Z) :
  0 ≤ k → Zpos p < 2 ^ k → Zpos (digits2_pos p) ≤ k.
Proof.
  intros Hk Hp. pose proof (digits2_pos_le p) as Hle.
  assert (Hlt : 2 ^ (Z.pos (digits2_pos p) - 1) < 2 ^ k) by lia.
  apply Z.pow_lt_mono_r_iff in Hlt; lia.
Qed.

(** The first stage of a rounding: the mantissa is cut to the exponent of
    the format. *)
Lemma shr_fexp_spec (m : positive) (e : Z) (l : location) :
  (shr_fexp prec emax (Zpos m) e l).2
  = Z.max e (fexp prec emax (Zpos (digits2_pos m) + e))
  ∧ shr_m (shr_fexp prec emax (Zpos m) e l).1
    = Zpos m / 2 ^ (Z.max e (fexp prec emax (Zpos (digits2_pos m) + e)) - e).
Proof.
  unfold shr_fexp, shr. cbn [Zdigits2].
  destruct (fexp prec emax (Z.pos (digits2_pos m) + e) - e) as [|n|n] eqn:Hn;
    cbn [fst snd]; rewrite ?shr_m_record_of_loc.
  - rewrite Z.max_l by lia. rewrite Z.sub_diag. by rewrite Z.div_1_r.
  - rewrite Z.max_r by lia. split; [lia|].
    rewrite iter_pos_shr_m by (rewrite shr_m_record_of_loc; lia).
    rewrite shr_m_record_of_loc, Hn. done.
  - rewrite Z.max_l by lia. rewrite Z.sub_diag. by rewrite Z.div_1_r.
Qed.

Lemma fexp_ge (x : Z) : x - 53 ≤ fexp prec emax x ∧ -1074 ≤ fexp prec emax x.
Proof. unfold fexp, emin, prec, emax. lia. Qed.

Lemma first_stage_lt (m : positive) (e : Z) :
  Zpos m / 2 ^ (Z.max e (fexp prec emax (Zpos (digits2_pos m) + e)) - e)
  < 2 ^ 53.
Proof.
  pose proof (fexp_ge (Z.pos (digits2_pos m) + e)) as [Hf _].
  pose proof (digits2_pos_lt m) as Hlt.
  pose proof (Pos2Z.is_pos (digits2_pos m)) as Hd.
  set (k := Z.max e (fexp prec emax (Z.pos (digits2_pos m) + e)) - e).
  assert (Hk : 0 ≤ k ∧ Z.pos (digits2_pos m) - 53 ≤ k) by (unfold k; lia).
  apply Z.div_lt_upper_bound; [apply Z.pow_pos_nonneg; lia|].
  destruct (Z.le_gt_cases (Z.pos (digits2_pos m)) 53) as [Hsmall|Hbig].
  - assert (H1 : 2 ^ Z.pos (digits2_pos m) ≤ 2 ^ 53)
      by (apply Z.pow_le_mono_r; lia).
    pose proof (Z.pow_pos_nonneg 2 k ltac:(lia) ltac:(lia)) as H2.
    nia.
  - assert (H1 : 2 ^ Z.pos (digits2_pos m) ≤ 2 ^ (k + 53))
      by (apply Z.pow_le_mono_r; lia).
    rewrite Z.pow_add_r in H1 by lia. lia.
Qed.

(** The second stage: a rounded mantissa fits, or is 2^53 and is cut once
    more. *)
Lemma second_stage (m2 : positive) (e' : Z) :
  -1074 ≤ e' → Zpos m2 ≤ 2 ^ 53 →
  shr_fexp prec emax (Zpos m2) e' loc_Exact
  = if Zpos m2 <? 2 ^ 53
    then (Build_shr_record (Zpos m2) false false, e')
    else (Build_shr_record (2 ^ 52) false false, e' + 1).
Proof.
  intros He Hm. destruct (Z.ltb_spec (Zpos m2) (2 ^ 53)) as [Hlt|Hge].
  - unfold shr_fexp, shr. cbn [Zdigits2 shr_record_of_loc].
    pose proof (digits2_pos_bound m2 53 ltac:(lia) Hlt) as Hd.
    assert (Hn : fexp prec emax (Z.pos (digits2_pos m2) + e') - e' ≤ 0).
    { unfold fexp, emin, prec, emax. lia. }
    destruct (fexp prec emax (Z.pos (digits2_pos m2) + e') - e'); [done|lia|done].
  - assert (Heq : m2 = 9007199254740992%positive) by lia. subst m2.
    unfold shr_fexp, shr. cbn [Zdigits2 shr_record_of_loc].
    change (Z.pos (digits2_pos 9007199254740992)) with 54.
    replace (fexp prec emax (54 + e') - e') with 1
      by (unfold fexp, emin, prec, emax; lia).
    done.
Qed.

Lemma round_nearest_even_le (m : Z) (l : location) :
  round_nearest_even m l ≤ m + 1.
Proof. destruct l as [|[]]; simpl; try lia. destruct (Z.even m); lia. Qed.

Lemma shr_fexp_zero (e : Z) :
  shr_m (shr_fexp prec emax 0 e loc_Exact).1 = 0.
Proof.
  unfold shr_fexp, shr. cbn [Zdigits2 shr_record_of_loc].
  destruct (fexp prec emax (0 + e) - e) as [|n|n]; cbn [fst]; try done.
  by rewrite iter_pos_shr_m.
Qed.

Lemma binary_round_aux_spec (sx : bool) (m : positive) (e : Z) (l : location) :
  ∃ m2,
    Zpos m / 2 ^ (Z.max e (fexp prec emax (Zpos (digits2_pos m) + e)) - e) ≤ m2
    ∧ m2 ≤ Zpos m / 2 ^ (Z.max e (fexp prec emax (Zpos (digits2_pos m) + e)) - e) + 1
    ∧ binary_round_aux prec emax sx (Zpos m) e l
      = if m2 <? 2 ^ 53
        then finish sx m2 (Z.max e (fexp prec emax (Zpos (digits2_pos m) + e)))
        else finish sx (2 ^ 52)
               (Z.max e (fexp prec emax (Zpos (digits2_pos m) + e)) + 1).
Proof.
  unfold binary_round_aux.
  pose proof (shr_fexp_spec m e l) as [He' Hm1].
  pose proof (first_stage_lt m e) as Hlt.
  pose proof (fexp_ge (Z.pos (digits2_pos m) + e)) as [_ Hmin].
  destruct (shr_fexp prec emax (Z.pos m) e l) as [mrs' e1].
  cbn [fst snd] in He', Hm1. subst e1.
  set (e' := Z.max e (fexp prec emax (Z.pos (digits2_pos m) + e))) in *.
  rewrite <- Hm1 in Hlt |- *.
  assert (Hm0 : 0 ≤ shr_m mrs').
  { rewrite Hm1. apply Z.div_pos; [lia|]. apply Z.pow_pos_nonneg; lia. }
  pose proof (round_nearest_even_ge (shr_m mrs') (loc_of_shr_record mrs')) as Hge.
  pose proof (round_nearest_even_le (shr_m mrs') (loc_of_shr_record mrs')) as Hle.
  exists (round_nearest_even (shr_m mrs') (loc_of_shr_record mrs')).
  split; [done|]. split; [done|].
  destruct (round_nearest_even (shr_m mrs') (loc_of_shr_record mrs'))
    as [|m2|m2]; [| |lia].
  - pose proof (shr_fexp_zero e') as Hz.
    destruct (shr_fexp prec emax 0 e' loc_Exact) as [mrs'' e'']. cbn [fst] in Hz.
    by rewrite Hz.
  - rewrite second_stage by (unfold e'; lia).
    by destruct (Z.pos m2 <? 2 ^ 53).
Qed.

Lemma rad2deg_eq : rad2deg = S754_finite false 8063664102031864 (-47).
Proof. by vm_compute. Qed.

Lemma SFcompare_pos (m1 m2 : positive) (e1 e2 : Z) :
  SFcompare (S754_finite false m1 e1) (S754_finite false m2 e2)
  = Some match e1 ?= e2 with
         | Lt => Lt
         | Gt => Gt
         | Eq => (m1 ?= m2)%positive
         end.
Proof. reflexivity. Qed.

Lemma SFleb_finish_f90 (sx : bool) (m e : Z) :
  0 ≤ m → e < -46 ∨ (e = -46 ∧ m ≤ 6333186975989760) →
  SFleb (SFabs (finish sx m e)) f90 = true.
Proof.
  intros Hm He. destruct m as [|p|p]; [done| |lia]. unfold finish.
  assert (Hfin : (e <=? emax - prec) = true)
    by (apply Z.leb_le; unfold emax, prec; lia).
  rewrite Hfin. unfold SFleb, SFabs, f90. rewrite SFcompare_pos.
  destruct He as [He | [-> Hp]].
  - assert (Hc : (e ?= -46) = Lt) by (by apply Z.compare_lt_iff). by rewrite Hc.
  - rewrite Z.compare_refl.
    destruct (Pos.compare_spec p 6333186975989760) as [Heq|Hlt|Hgt].
    + reflexivity.
    + reflexivity.
    + exfalso. apply Pos2Z.pos_lt_pos in Hgt. apply (Z.lt_irrefl (Zpos p)). eapply Z.le_lt_trans; [exact Hp| exact Hgt].
Qed.

Lemma SFleb_half_pi (m : positive) (e : Z) :
  SFleb (S754_finite false m e) half_pi = true →
  e < -52 ∨ (e = -52 ∧ Zpos m ≤ 7074237752028440).
Proof.
  unfold SFleb, half_pi. rewrite SFcompare_pos.
  destruct (Z.compare_spec e (-52)) as [-> | Hlt | Hgt]; [|by left|discriminate].
  intros Hle. right. split; [reflexivity|].
  destruct (Pos.compare_spec m 7074237752028440) as [Heq | Hlt | Hgt];
    [| | discriminate].
  - rewrite Heq. apply Z.le_refl.
  - apply Pos2Z.pos_lt_pos in Hlt. by apply Z.lt_le_incl.
Qed.

Lemma deg_const_lt : 8063664102031864 < 2 ^ 53.
Proof. by vm_compute. Qed.

Lemma deg_product : (7074237752028440 * 8063664102031864) / 2 ^ 53 + 1
                    ≤ 6333186975989760.
Proof. by vm_compute. Qed.

Lemma f90_lt : 6333186975989760 < 2 ^ 53.
Proof. by vm_compute. Qed.

(** The product mantissa at the top of the range. *)
Lemma top_product (m m2 : Z) :
  0 < m → m ≤ 7074237752028440 →
  m2 ≤ (m * 8063664102031864) / 2 ^ 53 + 1 →
  m2 ≤ 6333186975989760.
Proof.
  intros Hm0 Hm Hm2.
  etrans; [exact Hm2|]. etrans; [|exact deg_product].
  apply Z.add_le_mono_r. apply Z.div_le_mono; [by vm_compute|].
  apply Z.mul_le_mono_nonneg_r; [by vm_compute | done].
Qed.

Lemma valid_binary_finite (s : bool) (m : positive) (e : Z) :
  valid_binary prec emax (S754_finite s m e) = true →
  Zpos (digits2_pos m) ≤ 53 ∧ -1074 ≤ e.
Proof.
  cbn [valid_binary]. unfold bounded, canonical_mantissa.
  intros [Hcan Hemax]%andb_true_iff. apply Z.eqb_eq in Hcan.
  pose proof (fexp_ge (Z.pos (digits2_pos m) + e)) as [Hf1 Hf2]. lia.
Qed.

Lemma np_degrees_bound (a : spec_float) :
  valid_binary prec emax a = true →
  SFleb (SFabs a) half_pi = true →
  SFleb (SFabs (np_degrees a)) f90 = true.
Proof.
  unfold np_degrees. rewrite rad2deg_eq.
  destruct a as [s|s| |s m e]; intros Hv Hle.
  - reflexivity.
  - discriminate Hle.
  - discriminate Hle.
  - apply valid_binary_finite in Hv as [Hd Hemin].
    apply SFleb_half_pi in Hle as He.
    cbn [SFmul].
    set (M := (m * 8063664102031864)%positive).
    set (E := e + -47).
    destruct (binary_round_aux_spec (xorb s false) M E loc_Exact)
      as (m2 & Hlo & Hhi & ->).
    assert (HM : Zpos M < 2 ^ (Z.pos (digits2_pos m) + 53)).
    { unfold M. rewrite Pos2Z.inj_mul, Z.pow_add_r by lia.
      pose proof (digits2_pos_lt m) as Hm.
      apply Z.mul_lt_mono_nonneg; [lia | done | by vm_compute | exact deg_const_lt]. }
    assert (HD : Z.pos (digits2_pos M) ≤ Z.pos (digits2_pos m) + 53)
      by (apply digits2_pos_bound; [lia | done]).
    assert (He' : Z.max E (fexp prec emax (Z.pos (digits2_pos M) + E)) ≤ e + 6).
    { unfold fexp, emin, prec, emax, E. lia. }
    assert (HeE : E ≤ Z.max E (fexp prec emax (Z.pos (digits2_pos M) + E)))
      by apply Z.le_max_l.
    set (e' := Z.max E (fexp prec emax (Z.pos (digits2_pos M) + E))) in *.
    assert (Hm2 : 0 ≤ m2).
    { etrans; [|exact Hlo]. apply Z.div_pos; [lia|]. apply Z.pow_pos_nonneg; lia. }
    destruct (Z.ltb_spec m2 (2 ^ 53)) as [Hlt|Hge].
    + apply SFleb_finish_f90; [done|].
      destruct (Z.lt_ge_cases e' (-46)) as [Hlt'|Hge']; [by left | right].
      assert (Hee : e = -52 ∧ e' = -46) by lia. destruct Hee as [Hee Hee'].
      destruct He as [? | [_ Hm]]; [lia|].
      split; [done|]. rewrite Hee' in Hhi. unfold E in Hhi. rewrite Hee in Hhi.
      change (-46 - (-52 + -47)) with 53 in Hhi.
      apply (top_product (Zpos m)); [lia | done |].
      unfold M in Hhi. by rewrite Pos2Z.inj_mul in Hhi.
    + apply SFleb_finish_f90; [by vm_compute|].
      destruct (Z.lt_ge_cases e' (-47)) as [Hlt'|Hge']; [left; lia|].
      destruct (Z.eq_dec e' (-47)) as [Heq|Hne].
      * right. split; [lia | by vm_compute].
      * exfalso. assert (Hee : e = -52 ∧ e' = -46) by lia.
        destruct Hee as [Hee Hee'].
        destruct He as [? | [_ Hm]]; [lia|].
        rewrite Hee' in Hhi. unfold E in Hhi. rewrite Hee in Hhi.
        change (-46 - (-52 + -47)) with 53 in Hhi.
        assert (Hb : m2 ≤ 6333186975989760).
        { apply (top_product (Zpos m)); [lia | done |].
          unfold M in Hhi. by rewrite Pos2Z.inj_mul in Hhi. }
        pose proof f90_lt. lia.
Qed.








End PyFloat.

(** *** What the slope calculation raises and returns *)

Section PyFacts.
Import Py.
Local Open Scope Z_scope.
Context `{Libm}.






Lemma np_degrees_nan : np_degrees S754_nan = S754_nan.
Proof. reflexivity. Qed.

(** C6, in the form that holds.  When the slope calculation returns, the
    value is [np.degrees (np.arctan (rise / run))], with rise, run and
    quotient as Python computes them.  With an arctangent whose values are
    NaN or doubles no larger in size than the double nearest pi/2, as the C
    library's is, the value returned is NaN or lies between -90.0 and 90.0,
    both included.  With an arctangent that gives the nearest double at 1,
    -1 and 0, the pairs (0,0),(1,1), (0,0),(1,-1) and (0,0),(1,0) give
    45.0, -45.0 and 0.0. *)
Theorem get_slope_angle :
  (∀ p q v,
     Py.get_slope p q = Ok v →
     ∃ rise run slope,
       Py.sub q.2 p.2 = Ok rise ∧ Py.sub q.1 p.1 = Ok run
       ∧ is_zero run = false ∧ Py.true_div rise run = Ok slope
       ∧ v = np_degrees (np_arctan slope))
  ∧ (arctan_in_range →
     ∀ p q v, Py.get_slope p q = Ok v →
              v = S754_nan ∨ SFleb (SFabs v) f90 = true)
  ∧ (np_arctan f1 = quarter_pi →
     Py.get_slope (PInt 0, PInt 0) (PInt 1, PInt 1) = Ok f45)
  ∧ (np_arctan (SFopp f1) = SFopp quarter_pi →
     Py.get_slope (PInt 0, PInt 0) (PInt 1, PInt (-1)) = Ok (SFopp f45))
  ∧ (np_arctan (S754_zero false) = S754_zero false →
     Py.get_slope (PInt 0, PInt 0) (PInt 1, PInt 0) = Ok (S754_zero false)).
Proof.
  assert (Hform : ∀ p q v,
     Py.get_slope p q = Ok v →
     ∃ rise run slope,
       Py.sub q.2 p.2 = Ok rise ∧ Py.sub q.1 p.1 = Ok run
       ∧ is_zero run = false ∧ Py.true_div rise run = Ok slope
       ∧ v = np_degrees (np_arctan slope)).
  { intros [x1 y1] [x2 y2] v. unfold Py.get_slope. cbn [fst snd].
    destruct (Py.sub y2 y1) as [rise|e] eqn:Hrise; simpl; [|discriminate].
    destruct (Py.sub x2 x1) as [run|e] eqn:Hrun; simpl; [|discriminate].
    destruct (is_zero run) eqn:Hz; [discriminate|].
    destruct (Py.true_div rise run) as [slope|e] eqn:Hslope; simpl;
      [|discriminate].
    intros [= <-]. by exists rise, run, slope. }
  split; [exact Hform|]. split; [|split; [|split]].
  - intros Hrange p q v Hv.
    destruct (Hform p q v Hv) as (rise & run & slope & _ & _ & _ & _ & ->).
    destruct (Hrange slope) as [-> | [Hvalid Hle]]; [by left | right].
    by apply np_degrees_bound.
  - intros Ha. unfold Py.get_slope. cbv beta iota.
    change (Py.sub (PInt 1) (PInt 0)) with (Ok (PInt 1) : result number).
    cbn [bind]. change (is_zero (PInt 1)) with false. cbv iota.
    change (Py.true_div (PInt 1) (PInt 1)) with (Ok f1 : result spec_float).
    cbn [bind]. rewrite Ha. by vm_compute.
  - intros Ha. unfold Py.get_slope. cbv beta iota.
    change (Py.sub (PInt (-1)) (PInt 0)) with (Ok (PInt (-1)) : result number).
    change (Py.sub (PInt 1) (PInt 0)) with (Ok (PInt 1) : result number).
    cbn [bind]. change (is_zero (PInt 1)) with false. cbv iota.
    change (Py.true_div (PInt (-1)) (PInt 1))
      with (Ok (SFopp f1) : result spec_float).
    cbn [bind]. rewrite Ha. by vm_compute.
  - intros Ha. unfold Py.get_slope. cbv beta iota.
    change (Py.sub (PInt 0) (PInt 0)) with (Ok (PInt 0) : result number).
    change (Py.sub (PInt 1) (PInt 0)) with (Ok (PInt 1) : result number).
    cbn [bind]. change (is_zero (PInt 1)) with false. cbv iota.
    change (Py.true_div (PInt 0) (PInt 1))
      with (Ok (S754_zero false) : result spec_float).
    cbn [bind]. rewrite Ha. by vm_compute.
Qed.

(** On whole-number coordinates, moving both points by the same whole
    amounts leaves what the calculation does as it is. *)
Theorem get_slope_translate_int (x1 y1 x2 y2 dx dy : Z) :
  Py.get_slope (PInt (x1 + dx), PInt (y1 + dy)) (PInt (x2 + dx), PInt (y2 + dy))
  = Py.get_slope (PInt x1, PInt y1) (PInt x2, PInt y2).
Proof.
  unfold Py.get_slope. cbn [Py.sub].
  replace (y2 + dy - (y1 + dy)) with (y2 - y1) by lia.
  by replace (x2 + dx - (x1 + dx)) with (x2 - x1) by lia.
Qed.

(** Changing the sign of both whole numbers leaves their quotient as it
    is. *)
Lemma raw_opp_div (a b : Z) :
  a ≠ 0 → b ≠ 0 →
  SFdiv prec emax (raw (- a)) (raw (- b)) = SFdiv prec emax (raw a) (raw b).
Proof.
  intros Ha Hb. destruct a as [|p|p], b as [|q|q]; try done;
    cbn [Z.opp raw SFdiv xorb]; reflexivity.
Qed.

(** On whole-number coordinates with different second coordinates the two
    orders of the points do the same: raise the same exception or return
    the same double. *)
Theorem get_slope_symmetric_int (x1 y1 x2 y2 : Z) :
  y1 ≠ y2 →
  Py.get_slope (PInt x1, PInt y1) (PInt x2, PInt y2)
  = Py.get_slope (PInt x2, PInt y2) (PInt x1, PInt y1).
Proof.
  intros Hy. unfold Py.get_slope. cbn [Py.sub bind is_zero Py.true_div].
  replace (y1 - y2) with (- (y2 - y1)) by lia.
  replace (x1 - x2) with (- (x2 - x1)) by lia.
  destruct (Z.eqb_spec (x2 - x1) 0) as [Hrun|Hrun],
    (Z.eqb_spec (- (x2 - x1)) 0) as [Hrun'|Hrun']; try lia; [done|].
  by rewrite raw_opp_div by lia.
Qed.

(** On whole-number coordinates, two points level with each other and
    with different first coordinates give the angle of a zero slope, the
    zero being negative when the end point is left of the start point. *)
Theorem get_slope_horizontal_int (x1 x2 y : Z) :
  x1 ≠ x2 →
  Py.get_slope (PInt x1, PInt y) (PInt x2, PInt y)
  = Ok (np_degrees (np_arctan (S754_zero (x2 <? x1)))).
Proof.
  intros Hx. unfold Py.get_slope. cbn [Py.sub bind is_zero Py.true_div].
  rewrite Z.sub_diag.
  destruct (Z.eqb_spec (x2 - x1) 0) as [|Hne]; [lia|].
  destruct (x2 - x1) as [|p|p] eqn:Hrun; [done| |]; cbn [raw SFdiv is_inf xorb].
  - by replace (x2 <? x1) with false by (symmetry; apply Z.ltb_ge; lia).
  - by replace (x2 <? x1) with true by (symmetry; apply Z.ltb_lt; lia).
Qed.

End PyFacts.

(** *** The slope calculation at given points *)

(** The table of arctangents used below is in range. *)
Lemma arctan_table_in_range : @Py.arctan_in_range Py.libm_table.
Proof.
  intros x. cbn [Py.np_arctan Py.libm_table].
  destruct x as [s|s| |s m e]; cbn [Py.arctan_table].
  - right. by destruct s.
  - right. by destruct s.
  - by left.
  - destruct (_ && _); [right; by destruct s|].
    destruct (_ <=? _)%Z; [right; by destruct s | by left].
Qed.



(** C6, as it is stated, fails.  For (0, 0) and (1, 10^17) the slope is so
    steep that the arctangent is the double nearest pi/2, and its
    conversion to degrees is 90.0 itself, not a value below 90; for the
    points (-M, -M) and (M, M) with M the largest double, rise and run are
    both infinite, their quotient is NaN and so is the result. *)
Lemma get_slope_reaches_90 :
  @Py.get_slope Py.libm_table
    (Py.PInt 0, Py.PInt 0) (Py.PInt 1, Py.PInt (10 ^ 17))
  = Ok Py.f90
  ∧ Py.strictly_within_90 Py.f90 = false
  ∧ @Py.get_slope Py.libm_table
      (Py.PFloat (SFopp Py.max_float), Py.PFloat (SFopp Py.max_float))
      (Py.PFloat Py.max_float, Py.PFloat Py.max_float)
    = Ok S754_nan
  ∧ Py.strictly_within_90 S754_nan = false.
Proof. repeat split; by vm_compute. Qed.

Lemma get_slope_angle_witness :
  @Py.get_slope Py.libm_table (Py.PInt 0, Py.PInt 0) (Py.PInt 1, Py.PInt 1)
  = Ok Py.f45
  ∧ @Py.get_slope Py.libm_table (Py.PInt 0, Py.PInt 0) (Py.PInt 1, Py.PInt (-1))
    = Ok (SFopp Py.f45)
  ∧ @Py.get_slope Py.libm_table (Py.PInt 0, Py.PInt 0) (Py.PInt 1, Py.PInt 0)
    = Ok (S754_zero false)
  ∧ SFleb (SFabs Py.f45) Py.f90 = true.
Proof.
  destruct (@get_slope_angle Py.libm_table) as (_ & Hbound & H45 & Hm45 & H0).
  split; [apply H45; reflexivity|].
  split; [apply Hm45; reflexivity|].
  split; [apply H0; reflexivity|].
  destruct (Hbound arctan_table_in_range
              (Py.PInt 0, Py.PInt 0) (Py.PInt 1, Py.PInt 1) Py.f45) as [Hnan|Hle].
  - apply H45. reflexivity.
  - discriminate Hnan.
  - exact Hle.
Defined.

Lemma get_slope_symmetric_int_witness :
  @Py.get_slope Py.libm_table (Py.PInt 0, Py.PInt 0) (Py.PInt 1, Py.PInt 1)
  = @Py.get_slope Py.libm_table (Py.PInt 1, Py.PInt 1) (Py.PInt 0, Py.PInt 0).
Proof. apply (@get_slope_symmetric_int Py.libm_table 0 0 1 1)%Z. discriminate. Defined.

Lemma get_slope_horizontal_int_witness :
  @Py.get_slope Py.libm_table (Py.PInt 4, Py.PInt 3) (Py.PInt 1, Py.PInt 3)
  = Ok (S754_zero true).
Proof. apply (@get_slope_horizontal_int Py.libm_table 4 1 3)%Z. discriminate. Defined.
